(** * pschitt: emission profiles and the transmission mask

    A shallow embedding of [pschitt/emission.py].

    Numbers.  The module computes on NumPy [float64] values.  They are
    modelled by [npfloat]: a real number of the finite binary64 range, one of
    the two infinities, or NaN.  Arithmetic is exact on the reals; a result
    that leaves the finite range becomes an infinity, a division by zero or an
    undefined form ([0/0], [inf * 0], [inf - inf]) gives the value NumPy
    gives (on plain Python floats a division by zero raises
    [ZeroDivisionError] and an overflowing [**] raises [OverflowError]
    instead).  Rounding to 53 bits, underflow, the sign of zero and the
    integer/float distinction of Python ([1] against [1.]) are not modelled.
    The orders and bounds stated below are non-strict or leave a margin, so
    that rounding preserves them; where rounding decides, the function is
    evaluated on binary64 itself ([Binary64]).

    Arrays.  A NumPy value is a 0-d scalar or a 1-d array ([ndarray]); binary
    operations broadcast as NumPy does and fail on incompatible lengths.

    Effects.  [mask_transmitted_particles] runs in a state-and-error monad
    over a [World] holding the telescope object, the shower object and the
    state of the global generator [np.random].

    Plots.  The functions of [pschitt/vizualisation.py] run in a second monad
    that records the calls they make to matplotlib, in order, and the
    exception they raise.  What matplotlib does with a call is not
    modelled. *)

From Stdlib Require Import String.
From Stdlib Require PrimFloat.
From Stdlib Require Import Reals Lra List Bool Arith Lia ZArith.
Import ListNotations.

Set Implicit Arguments.

Local Open Scope R_scope.

(** ** Binary64 values without rounding *)

Module Float64.

Inductive npfloat : Type :=
| Fin (x : R)
| PInf
| NInf
| NaN.

(** The largest finite binary64 number, [(2 - 2^-52) * 2^1023]. *)
Definition max_float : R := (2 - / 2 ^ 52) * 2 ^ 1023.

(** Overflow: an exact result beyond the finite range is an infinity. *)
Definition norm (x : R) : npfloat :=
  if Rlt_dec max_float x then PInf
  else if Rlt_dec x (- max_float) then NInf
  else Fin x.

Definition Rleb (x y : R) : bool := if Rle_dec x y then true else false.
Definition Rltb (x y : R) : bool := if Rlt_dec x y then true else false.
Definition Reqb (x y : R) : bool := if Req_dec_T x y then true else false.

(** The infinity of sign [pos] multiplied by a finite [x]. *)
Definition inf_times (pos : bool) (x : R) : npfloat :=
  if Reqb x 0 then NaN
  else if Bool.eqb pos (Rltb 0 x) then PInf else NInf.

Definition fopp (a : npfloat) : npfloat :=
  match a with
  | Fin x => Fin (- x)
  | PInf => NInf
  | NInf => PInf
  | NaN => NaN
  end.

Definition fadd (a b : npfloat) : npfloat :=
  match a, b with
  | NaN, _ | _, NaN => NaN
  | Fin x, Fin y => norm (x + y)
  | PInf, NInf | NInf, PInf => NaN
  | PInf, _ | _, PInf => PInf
  | NInf, _ | _, NInf => NInf
  end.

Definition fsub (a b : npfloat) : npfloat := fadd a (fopp b).

Definition fmul (a b : npfloat) : npfloat :=
  match a, b with
  | NaN, _ | _, NaN => NaN
  | Fin x, Fin y => norm (x * y)
  | PInf, Fin x | Fin x, PInf => inf_times true x
  | NInf, Fin x | Fin x, NInf => inf_times false x
  | PInf, PInf | NInf, NInf => PInf
  | PInf, NInf | NInf, PInf => NInf
  end.

(** Division; a zero divisor counts as [+0]. *)
Definition fdiv (a b : npfloat) : npfloat :=
  match a, b with
  | NaN, _ | _, NaN => NaN
  | Fin x, Fin y =>
      if Reqb y 0 then
        if Reqb x 0 then NaN else if Rltb 0 x then PInf else NInf
      else norm (x / y)
  | Fin _, (PInf | NInf) => Fin 0
  | PInf, Fin y => if Rltb y 0 then NInf else PInf
  | NInf, Fin y => if Rltb y 0 then PInf else NInf
  | (PInf | NInf), (PInf | NInf) => NaN
  end.

(** [x ** n] for a literal natural exponent. *)
Fixpoint fpow (a : npfloat) (n : nat) : npfloat :=
  match n with
  | O => Fin 1
  | S O => a
  | S m => fmul a (fpow a m)
  end.

(** [np.exp]. *)
Definition fexp (a : npfloat) : npfloat :=
  match a with
  | Fin x => norm (exp x)
  | PInf => PInf
  | NInf => Fin 0
  | NaN => NaN
  end.

(** Comparisons; every comparison with NaN is false. *)
Definition flt (a b : npfloat) : bool :=
  match a, b with
  | Fin x, Fin y => Rltb x y
  | NInf, (Fin _ | PInf) => true
  | Fin _, PInf => true
  | _, _ => false
  end.

Definition fle (a b : npfloat) : bool :=
  match a, b with
  | Fin x, Fin y => Rleb x y
  | NInf, (Fin _ | PInf | NInf) => true
  | (Fin _ | PInf), PInf => true
  | _, _ => false
  end.

Definition fgt (a b : npfloat) : bool := flt b a.
Definition fge (a b : npfloat) : bool := fle b a.

(** Values an operation of the model can return: a finite one lies in the
    binary64 range. *)
Definition in_range (a : npfloat) : Prop :=
  match a with
  | Fin x => - max_float <= x <= max_float
  | _ => True
  end.

(** A Python [bool] used as a number. *)
Definition b2f (b : bool) : npfloat := if b then Fin 1 else Fin 0.

End Float64.

Export Float64.

(** ** NumPy values and broadcasting *)

Inductive ndarray (A : Type) : Type :=
| Scalar (a : A)
| Arr (l : list A).

Arguments Scalar {A} a.
Arguments Arr {A} l.

Definition zip_with {A B C : Type} (f : A -> B -> C)
    (l1 : list A) (l2 : list B) : list C :=
  map (fun ab => f (fst ab) (snd ab)) (combine l1 l2).

(** An element-wise binary operation on two NumPy values.  Two 1-d arrays
    need equal lengths, unless one of them has length 1 and is stretched;
    [None] is the [ValueError] of incompatible shapes. *)
Definition broadcast2 {A B C : Type} (f : A -> B -> C)
    (x : ndarray A) (y : ndarray B) : option (ndarray C) :=
  match x, y with
  | Scalar a, Scalar b => Some (Scalar (f a b))
  | Scalar a, Arr l => Some (Arr (map (f a) l))
  | Arr l, Scalar b => Some (Arr (map (fun a => f a b) l))
  | Arr l1, Arr l2 =>
      if Nat.eqb (length l1) (length l2) then Some (Arr (zip_with f l1 l2))
      else match l1, l2 with
           | [a], _ => Some (Arr (map (f a) l2))
           | _, [b] => Some (Arr (map (fun a => f a b) l1))
           | _, _ => None
           end
  end.

Definition nd_mul : ndarray npfloat -> ndarray npfloat -> option (ndarray npfloat) :=
  broadcast2 fmul.

Definition nd_gt : ndarray npfloat -> ndarray npfloat -> option (ndarray bool) :=
  broadcast2 fgt.

(** A function written with element-wise operators, applied to a NumPy
    value. *)
Definition nd_map {A B : Type} (f : A -> B) (x : ndarray A) : ndarray B :=
  match x with
  | Scalar a => Scalar (f a)
  | Arr l => Arr (map f l)
  end.

(** The [i]-th element of a value seen as an array of the length of its
    partner: a scalar has the same element everywhere. *)
Definition nd_get (x : ndarray npfloat) (i : nat) : npfloat :=
  match x with
  | Scalar a => a
  | Arr l => nth i l NaN
  end.

(** A value that combines with a 1-d array of length [n] element by
    element: a scalar, or a 1-d array of that length. *)
Definition fits (x : ndarray npfloat) (n : nat) : Prop :=
  match x with
  | Scalar _ => True
  | Arr l => length l = n
  end.

(** ** The emission profiles ([emission.py]) *)

(** A keyword argument with a default value. *)
Definition with_default {A : Type} (d : A) (o : option A) : A :=
  match o with
  | Some a => a
  | None => d
  end.

(** [np.ones(len(distances))] *)
Definition transmission (distances : list npfloat) : list npfloat :=
  repeat (Fin 1) (length distances).

Definition constant_profile (dist : npfloat) : npfloat := Fin 1.

Definition emission_profile (dist : npfloat) : npfloat := constant_profile dist.

(** [1./(1. + dist)**2]; the argument [alpha=2] is bound and not read. *)
Definition power_law_profile (dist : npfloat) (alpha : option npfloat) : npfloat :=
  let alpha := with_default (Fin 2) alpha in
  fdiv (Fin 1) (fpow (fadd (Fin 1) dist) 2).

(** [(dist<=shift) * 1. + (dist>shift) * 0.] *)
Definition ground_profile_heaviside (dist : npfloat) (shift : option npfloat) : npfloat :=
  let shift := with_default (Fin 120) shift in
  fadd (fmul (b2f (fle dist shift)) (Fin 1))
       (fmul (b2f (fgt dist shift)) (Fin 0)).

(** [(dist<=shift) * 1. + (dist>shift) * 1./(dist - shift)]; [*] and [/]
    associate to the left, so the quotient is
    [((dist>shift) * 1.) / (dist - shift)]. *)
Definition ground_profile_1 (dist : npfloat) (shift : option npfloat) : npfloat :=
  let shift := with_default (Fin 120) shift in
  fadd (fmul (b2f (fle dist shift)) (Fin 1))
       (fdiv (fmul (b2f (fgt dist shift)) (Fin 1)) (fsub dist shift)).

(** [1 * (angles <= limit)] *)
Definition angular_profile_heaviside (angles limit : npfloat) : npfloat :=
  fmul (Fin 1) (b2f (fle angles limit)).

(** [1 * (angles < break_angle)
     + np.exp(-alpha*(angles - break_angle)) * (angles >= break_angle)] *)
Definition angular_profile_exp_falloff (angles break_angle alpha : npfloat) : npfloat :=
  fadd (fmul (Fin 1) (b2f (flt angles break_angle)))
       (fmul (fexp (fmul (fopp alpha) (fsub angles break_angle)))
             (b2f (fge angles break_angle))).

(** The profiles as [mask_transmitted_particles] calls them:
    [angular_profile(angles, *args)] on the 1-d array of angles.  [None] is
    the [TypeError] of a wrong number of arguments. *)
Definition profile := list npfloat -> list npfloat -> option (ndarray npfloat).

Definition call_constant_profile : profile :=
  fun angles args =>
    match args with
    | [] => Some (Scalar (Fin 1))
    | _ => None
    end.

Definition call_angular_profile_heaviside : profile :=
  fun angles args =>
    match args with
    | [limit] => Some (Arr (map (fun a => angular_profile_heaviside a limit) angles))
    | _ => None
    end.

Definition call_angular_profile_exp_falloff : profile :=
  fun angles args =>
    match args with
    | [break_angle; alpha] =>
        Some (Arr (map (fun a => angular_profile_exp_falloff a break_angle alpha) angles))
    | _ => None
    end.

Definition call_ground_profile_1 : profile :=
  fun angles args =>
    match args with
    | [] => Some (Arr (map (fun a => ground_profile_1 a None) angles))
    | [shift] => Some (Arr (map (fun a => ground_profile_1 a (Some shift)) angles))
    | _ => None
    end.

(** ** The ground falloff profile on binary64

    The same expression on the machine's IEEE 754 binary64 numbers, every
    operation rounded to nearest. *)

Module Binary64.

Import PrimFloat.

Definition b2f (b : bool) : float := if b then 1%float else 0%float.

(** [(dist<=shift) * 1. + (dist>shift) * 1./(dist - shift)] *)
Definition ground_profile_1 (dist : float) (shift : option float) : float :=
  let shift := with_default 120%float shift in
  (b2f (dist <=? shift) * 1 + (b2f (shift <? dist) * 1) / (dist - shift))%float.



End Binary64.

(** ** Objects and the state of a call *)

Definition vec3 : Type := npfloat * npfloat * npfloat.

(** [u - v] on two 3-vectors. *)
Definition vsub (u v : vec3) : vec3 :=
  match u, v with
  | (ux, uy, uz), (vx, vy, vz) => (fsub ux vx, fsub uy vy, fsub uz vz)
  end.

Record Shower : Type := {
  particles : list vec3;
  alt : npfloat;
  az : npfloat;
  impact_point : vec3
}.

Record Telescope : Type := {
  mirror_center : vec3;
  camera_center : vec3;
  normal : vec3;
  pixel_tab : list (npfloat * npfloat);
  signal_hist : list npfloat;
  id : Z
}.

(** The objects a call can reach: the telescope and the shower passed by
    reference, and the stream of values the global generator of [np.random]
    will produce next. *)
Record World : Type := {
  w_tel : Telescope;
  w_shower : Shower;
  w_random : nat -> R
}.

(** State and exceptions: a computation returns a value or raises ([None]),
    and leaves a world. *)
Definition M (A : Type) : Type := World -> option A * World.

Definition ret {A : Type} (a : A) : M A := fun w => (Some a, w).

Definition bind {A B : Type} (m : M A) (k : A -> M B) : M B :=
  fun w =>
    match m w with
    | (Some a, w') => k a w'
    | (None, w') => (None, w')
    end.

Notation "x <- m ;; k" := (bind m (fun x => k))
  (at level 61, m at next level, right associativity).

Definition lift {A : Type} (o : option A) : M A := fun w => (o, w).

Definition get_tel : M Telescope := fun w => (Some (w_tel w), w).
Definition get_shower : M Shower := fun w => (Some (w_shower w), w).

(** [np.random.rand(n)]: the next [n] values of the generator, which
    advances by [n]. *)
Definition rand (n : nat) : M (list npfloat) :=
  fun w =>
    (Some (map (fun i => Fin (w_random w i)) (seq 0 n)),
     {| w_tel := w_tel w;
        w_shower := w_shower w;
        w_random := fun i => w_random w (n + i)%nat |}).

(** ** The mask *)

Section Mask.

(** The three operations of [pschitt.geometry] the function calls. *)
Variable distance_shower_camera_center : Shower -> Telescope -> list npfloat.
Variable altaz_to_normal : npfloat -> npfloat -> vec3.
Variable angle : vec3 -> vec3 -> npfloat.

(** The array [angles] of the function body. *)
Definition particle_angles (tel : Telescope) (shower : Shower) : list npfloat :=
  let shower_direction := altaz_to_normal (alt shower) (az shower) in
  map (fun particle => angle shower_direction (vsub particle (mirror_center tel)))
      (particles shower).

Definition mask_transmitted_particles (angular_profile : profile)
    (args : list npfloat) : M (ndarray bool) :=
  tel <- get_tel ;;
  shower <- get_shower ;;
  let particle_distances := distance_shower_camera_center shower tel in
  let transmissions := transmission particle_distances in
  let angles := particle_angles tel shower in
  prof <- lift (angular_profile angles args) ;;
  p_trans <- lift (nd_mul (Arr transmissions) prof) ;;
  draws <- rand (length (particles shower)) ;;
  lift (nd_gt p_trans (Arr draws)).

End Mask.

(** ** Plots ([vizualisation.py]) *)

Inductive exn : Type :=
| IndexError
| AssertionError
| UnboundLocalError
| ValueError.

Inductive result (A : Type) : Type :=
| Ok (a : A)
| Raise (e : exn).

Arguments Ok {A} a.
Arguments Raise {A} e.

(** The values an entry of the keyword dictionary [options] can hold; a pair
    is a [figsize]. *)
Inductive pyval : Type :=
| PyNone
| PyBool (b : bool)
| PyInt (z : Z)
| PyStr (s : String.string)
| PyPair (a b : Z).

(** Truth value of an object in a condition. *)
Definition truthy (v : pyval) : bool :=
  match v with
  | PyNone => false
  | PyBool b => b
  | PyInt z => negb (Z.eqb z 0)
  | PyStr s => negb (String.eqb s String.EmptyString)
  | PyPair _ _ => true
  end.

(** [v == True]: [True] equals itself and the integer 1. *)
Definition eq_True (v : pyval) : bool :=
  match v with
  | PyBool b => b
  | PyInt z => Z.eqb z 1
  | _ => false
  end.

(** [options.get(key)]: the value of the key, [None] when it is absent. *)
Fixpoint dict_get (options : list (String.string * pyval)) (key : String.string) : pyval :=
  match options with
  | [] => PyNone
  | (k, v) :: rest => if String.eqb k key then v else dict_get rest key
  end.

(** [plt.Circle((x, y), radius, color=color)] *)
Record Circle : Type := {
  circle_x : npfloat;
  circle_y : npfloat;
  circle_radius : npfloat;
  circle_color : String.string
}.

(** The calls made to matplotlib. *)
Inductive plot_cmd : Type :=
| Figure (figsize : pyval)
| AddSubplot3d
| AddPatch (p : Circle)
| PathPatch2dTo3d (p : Circle) (z : npfloat)
| Scatter3d (xs ys zs : list npfloat) (c : option (list npfloat))
| Scatter (xs ys : list npfloat) (c : option (list npfloat)) (s : option npfloat)
| AxisLimits (limits : list npfloat)
| AxisEqual
| SetXLabel (label : String.string)
| SetZLabel (label : String.string)
| Colorbar (label : String.string)
| Axes
| Arrow (x y dx dy : npfloat)
| Show
| SaveFig (fname : String.string).

(** A computation that appends to the record of calls and returns or
    raises; the calls made before an exception stay made. *)
Definition Plot (A : Type) : Type := list plot_cmd -> result A * list plot_cmd.

Definition pret {A : Type} (a : A) : Plot A := fun log => (Ok a, log).

Definition pbind {A B : Type} (m : Plot A) (k : A -> Plot B) : Plot B :=
  fun log =>
    match m log with
    | (Ok a, log') => k a log'
    | (Raise e, log') => (Raise e, log')
    end.

Notation "x <~ m ;; k" := (pbind m (fun x => k))
  (at level 61, m at next level, right associativity).

Definition emit (c : plot_cmd) : Plot unit := fun log => (Ok tt, log ++ [c]).

Definition raise {A : Type} (e : exn) : Plot A := fun log => (Raise e, log).

Definition plift {A : Type} (r : result A) : Plot A := fun log => (r, log).

(** [for x in l: body] *)
Fixpoint for_each {A : Type} (l : list A) (body : A -> Plot unit) : Plot unit :=
  match l with
  | [] => pret tt
  | x :: rest => _ <~ body x ;; for_each rest body
  end.

(** The components [v[0]], [v[1]], [v[2]] of a 3-vector. *)
Definition v0 (v : vec3) : npfloat := fst (fst v).
Definition v1 (v : vec3) : npfloat := snd (fst v).
Definition v2 (v : vec3) : npfloat := snd v.

(** [np.minimum] and [np.maximum]: a NaN operand gives NaN. *)
Definition fmin (a b : npfloat) : npfloat :=
  match a, b with
  | NaN, _ | _, NaN => NaN
  | _, _ => if flt b a then b else a
  end.

Definition fmax (a b : npfloat) : npfloat :=
  match a, b with
  | NaN, _ | _, NaN => NaN
  | _, _ => if flt a b then b else a
  end.

(** [a.min()] and [a.max()] of a 1-d array; an empty array raises. *)
Definition nd_min (l : list npfloat) : result npfloat :=
  match l with
  | [] => Raise ValueError
  | x :: rest => Ok (fold_left fmin rest x)
  end.

Definition nd_max (l : list npfloat) : result npfloat :=
  match l with
  | [] => Raise ValueError
  | x :: rest => Ok (fold_left fmax rest x)
  end.

(** [acc += x] on a 1-d array [acc]: [x] has the length of [acc] or
    length 1. *)
Definition nd_iadd (acc x : list npfloat) : result (list npfloat) :=
  if Nat.eqb (length x) (length acc) then Ok (zip_with fadd acc x)
  else match x with
       | [b] => Ok (map (fun a => fadd a b) acc)
       | _ => Raise ValueError
       end.

(** The loop [for tel in telescope_array: stacked_hist += tel.signal_hist]. *)
Fixpoint stack_hists (stacked_hist : list npfloat) (telescope_array : list Telescope)
    : result (list npfloat) :=
  match telescope_array with
  | [] => Ok stacked_hist
  | tel :: rest =>
      match nd_iadd stacked_hist (signal_hist tel) with
      | Ok acc => stack_hists acc rest
      | Raise e => Raise e
      end
  end.

Definition display_camera_image (telescope : Telescope) (figsize : option pyval)
    : Plot unit :=
  let figsize := with_default (PyPair 8 8) figsize in
  _ <~ emit (Figure figsize) ;;
  _ <~ emit (Scatter (map fst (pixel_tab telescope)) (map snd (pixel_tab telescope))
                     (Some (signal_hist telescope)) (Some (Fin 27))) ;;
  _ <~ emit AxisEqual ;;
  _ <~ emit (Colorbar "counts"%string) ;;
  emit Show.

Definition display_stacked_cameras (telescope_array : list Telescope) : Plot unit :=
  match telescope_array with
  | [] => raise IndexError
  | tel0 :: _ =>
      let l0 := length (signal_hist tel0) in
      if forallb (fun tel => Nat.eqb (length (signal_hist tel)) l0) telescope_array
      then
        stacked_hist <~ plift (stack_hists (repeat (Fin 0) l0) telescope_array) ;;
        _ <~ emit (Scatter (map fst (pixel_tab tel0)) (map snd (pixel_tab tel0))
                           (Some stacked_hist) None) ;;
        _ <~ emit AxisEqual ;;
        emit (Colorbar "counts"%string)
      else raise AssertionError
  end.

(** The arrow is drawn with [head_width=5, head_length=10, fc='k', ec='k']. *)
Definition display_pointing_tel (tel : Telescope) (show : option bool) : Plot unit :=
  let show := with_default true show in
  _ <~ emit Axes ;;
  _ <~ emit (Arrow (v0 (camera_center tel)) (v1 (camera_center tel))
                   (v0 (normal tel)) (v1 (normal tel))) ;;
  if show then emit Show else pret tt.

Definition is_finite (a : npfloat) : bool :=
  match a with
  | Fin _ => true
  | _ => false
  end.

(** [plt.axis([xmin, xmax, ymin, ymax])]: matplotlib refuses a limit that is
    NaN or infinite with a [ValueError]; a refused call is not recorded. *)
Definition axis_limits (limits : list npfloat) : Plot unit :=
  if forallb is_finite limits then emit (AxisLimits limits)
  else raise ValueError.

(** [centers[:,0]] on [np.array([...])] of the mirror centres raises on an
    empty list, whose array has one dimension only. *)
Definition display_pointing_array (alltel : list Telescope) : Plot unit :=
  let centers := map mirror_center alltel in
  match centers with
  | [] => raise IndexError
  | _ =>
      mx <~ plift (nd_min (map v0 centers)) ;;
      let xmin := fsub mx (Fin 50) in
      Mx <~ plift (nd_max (map v0 centers)) ;;
      let xmax := fadd Mx (Fin 50) in
      my <~ plift (nd_min (map v1 centers)) ;;
      let ymin := fsub my (Fin 50) in
      My <~ plift (nd_max (map v1 centers)) ;;
      let ymax := fadd My (Fin 50) in
      _ <~ for_each alltel (fun tel => display_pointing_tel tel (Some false)) ;;
      _ <~ emit AxisEqual ;;
      _ <~ axis_limits [xmin; xmax; ymin; ymax] ;;
      emit Show
  end.

(** The value of the loop variable after [for x in l]: the last element, and
    no binding when the loop body never ran. *)
Fixpoint loop_variable {A : Type} (l : list A) : option A :=
  match l with
  | [] => None
  | [x] => Some x
  | _ :: rest => loop_variable rest
  end.

Section PlotShower.

(** [stats.gaussian_kde(values)(values)] of scipy: the density at each point
    of the 3 x n array [values], or an exception. *)
Variable gaussian_kde_density :
  list npfloat * list npfloat * list npfloat -> result (list npfloat).

Definition plot_shower3d (shower : Shower) (alltel : list Telescope)
    (options : list (string * pyval)) : Plot unit :=
  let figsize :=
    if truthy (dict_get options "figsize") then dict_get options "figsize"
    else PyPair 12 12 in
  _ <~ emit (Figure figsize) ;;
  _ <~ emit AddSubplot3d ;;
  _ <~ for_each alltel (fun tel =>
         let p := {| circle_x := v0 (mirror_center tel);
                     circle_y := v1 (mirror_center tel);
                     circle_radius := Fin 30;
                     circle_color := "black" |} in
         _ <~ emit (AddPatch p) ;;
         emit (PathPatch2dTo3d p (v2 (mirror_center tel)))) ;;
  let ip := {| circle_x := v0 (impact_point shower);
               circle_y := v1 (impact_point shower);
               circle_radius := Fin 15;
               circle_color := "red" |} in
  _ <~ emit (AddPatch ip) ;;
  tel <~ match loop_variable alltel with
         | Some tel => pret tel
         | None => raise UnboundLocalError
         end ;;
  _ <~ emit (PathPatch2dTo3d ip (v2 (mirror_center tel))) ;;
  let values := (map v0 (particles shower),
                 map v1 (particles shower),
                 map v2 (particles shower)) in
  _ <~ (if eq_True (dict_get options "density_color") then
          density <~ plift (gaussian_kde_density values) ;;
          emit (Scatter3d (fst (fst values)) (snd (fst values)) (snd values)
                          (Some density))
        else
          emit (Scatter3d (fst (fst values)) (snd (fst values)) (snd values)
                          None)) ;;
  _ <~ emit (AxisLimits [Fin (-1000); Fin 1000; Fin (-1000); Fin 1000]) ;;
  _ <~ emit (SetXLabel "[m]") ;;
  _ <~ emit (SetZLabel "altitude [m]") ;;
  _ <~ (if eq_True (dict_get options "display") then emit Show else pret tt) ;;
  if truthy (dict_get options "outfile") then
    match dict_get options "outfile" with
    | PyStr outfile => emit (SaveFig (outfile ++ ".eps"))
    | _ => raise AssertionError
    end
  else pret tt.

End PlotShower.

(** A sample geometry provider and world, used to instantiate the statements
    below on concrete inputs: every particle is at distance 0 and at angle 0
    of the axis. *)
Module Sample.

Definition distance (sh : Shower) (tel : Telescope) : list npfloat :=
  map (fun _ => Fin 0) (particles sh).

Definition direction (alt az : npfloat) : vec3 := (Fin 0, Fin 0, Fin 1).

Definition angle (u v : vec3) : npfloat := Fin 0.

Definition origin : vec3 := (Fin 0, Fin 0, Fin 0).

Definition tel : Telescope :=
  {| mirror_center := origin;
     camera_center := (Fin 0, Fin 0, Fin 1);
     normal := (Fin 0, Fin 0, Fin 1);
     pixel_tab := [(Fin 0, Fin 0)];
     signal_hist := [Fin 0];
     id := 0%Z |}.

Definition shower : Shower :=
  {| particles := [(Fin 0, Fin 0, Fin 10); (Fin 1, Fin 0, Fin 20)];
     alt := Fin 1;
     az := Fin 0;
     impact_point := origin |}.

(** A generator whose draws are all [1/2], and one that agrees with it on the
    first two draws only. *)
Definition world : World :=
  {| w_tel := tel; w_shower := shower; w_random := fun _ => / 2 |}.

Definition world' : World :=
  {| w_tel := tel;
     w_shower := shower;
     w_random := fun i => if Nat.ltb i 2 then / 2 else 0 |}.

End Sample.

(** Sample telescopes for the plots: two cameras of two pixels and one of a
    single pixel. *)
Module SampleArray.

Definition tel_a : Telescope :=
  {| mirror_center := (Fin 0, Fin 0, Fin 0);
     camera_center := (Fin 0, Fin 0, Fin 10);
     normal := (Fin 0, Fin 1, Fin 0);
     pixel_tab := [(Fin 0, Fin 0); (Fin 1, Fin 0)];
     signal_hist := [Fin 1; Fin 2];
     id := 1%Z |}.

Definition tel_b : Telescope :=
  {| mirror_center := (Fin 100, Fin 50, Fin 20);
     camera_center := (Fin 100, Fin 50, Fin 30);
     normal := (Fin 1, Fin 0, Fin 0);
     pixel_tab := [(Fin 0, Fin 0); (Fin 1, Fin 0)];
     signal_hist := [Fin 3; Fin 4];
     id := 2%Z |}.

Definition tel_c : Telescope :=
  {| mirror_center := (Fin 200, Fin 0, Fin 0);
     camera_center := (Fin 200, Fin 0, Fin 10);
     normal := (Fin 0, Fin 1, Fin 0);
     pixel_tab := [(Fin 0, Fin 0)];
     signal_hist := [Fin 5];
     id := 3%Z |}.

End SampleArray.

(** * Properties *)

(** ** Arithmetic of the model *)

Lemma max_float_large : 2 ^ 40 <= max_float.
Proof.
  unfold max_float.
  assert (H52 : 1 <= 2 ^ 52) by (apply pow_R1_Rle; lra).
  assert (Hinv : / 2 ^ 52 <= 1).
  { rewrite <- Rinv_1. apply Rinv_le_contravar; lra. }
  assert (Hpow : 2 ^ 40 <= 2 ^ 1023) by (apply Rle_pow; [lra | lia]).
  assert (Hpos : 0 < 2 ^ 40) by (apply pow_lt; lra).
  nra.
Qed.

Lemma max_float_bound : 1000000 <= max_float.
Proof.
  apply Rle_trans with (2 ^ 40); [| apply max_float_large].
  simpl. lra.
Qed.

Lemma max_float_lt_pow : max_float < 2 ^ 1024.
Proof.
  unfold max_float.
  assert (Hpos : 0 < 2 ^ 1023) by (apply pow_lt; lra).
  assert (Hinv : 0 < / 2 ^ 52) by (apply Rinv_0_lt_compat, pow_lt; lra).
  replace (2 ^ 1024) with (2 * 2 ^ 1023) by (change 1024%nat with (S 1023); reflexivity).
  nra.
Qed.

Lemma norm_fin (x : R) : - max_float <= x <= max_float -> norm x = Fin x.
Proof.
  intros [Hlo Hhi]. unfold norm.
  destruct (Rlt_dec max_float x); [lra |].
  destruct (Rlt_dec x (- max_float)); [lra | reflexivity].
Qed.

Lemma norm_small (x : R) : -1000000 <= x <= 1000000 -> norm x = Fin x.
Proof.
  intros H. apply norm_fin. pose proof max_float_bound. lra.
Qed.

Lemma norm_pinf (x : R) : max_float < x -> norm x = PInf.
Proof.
  intros H. unfold norm. destruct (Rlt_dec max_float x); [reflexivity | lra].
Qed.

Lemma norm_cases (x : R) :
  (norm x = Fin x /\ - max_float <= x <= max_float)
  \/ (norm x = PInf /\ max_float < x)
  \/ (norm x = NInf /\ x < - max_float).
Proof.
  unfold norm.
  destruct (Rlt_dec max_float x); [right; left; split; [reflexivity | lra] |].
  destruct (Rlt_dec x (- max_float)); [right; right; split; [reflexivity | lra] |].
  left. split; [reflexivity | lra].
Qed.

Lemma Rleb_true (x y : R) : x <= y -> Rleb x y = true.
Proof. intros H. unfold Rleb. destruct (Rle_dec x y); [reflexivity | lra]. Qed.

Lemma Rleb_false (x y : R) : y < x -> Rleb x y = false.
Proof. intros H. unfold Rleb. destruct (Rle_dec x y); [lra | reflexivity]. Qed.

Lemma Rltb_true (x y : R) : x < y -> Rltb x y = true.
Proof. intros H. unfold Rltb. destruct (Rlt_dec x y); [reflexivity | lra]. Qed.

Lemma Rltb_false (x y : R) : y <= x -> Rltb x y = false.
Proof. intros H. unfold Rltb. destruct (Rlt_dec x y); [lra | reflexivity]. Qed.

Lemma Reqb_true (x y : R) : x = y -> Reqb x y = true.
Proof. intros H. unfold Reqb. destruct (Req_dec_T x y); [reflexivity | contradiction]. Qed.

Lemma Reqb_false (x y : R) : x <> y -> Reqb x y = false.
Proof. intros H. unfold Reqb. destruct (Req_dec_T x y); [contradiction | reflexivity]. Qed.

(** A comparison that holds excludes the opposite strict one. *)
Lemma fle_not_fgt (a b : npfloat) : fle a b = true -> fgt a b = false.
Proof.
  destruct a as [x| | |], b as [y| | |]; simpl; try reflexivity; try discriminate.
  unfold Rleb, Rltb. destruct (Rle_dec x y), (Rlt_dec y x); try reflexivity; try discriminate.
  lra.
Qed.

Lemma fmul_b2f_one (b : bool) : fmul (b2f b) (Fin 1) = b2f b.
Proof.
  destruct b; simpl; rewrite norm_small by lra; f_equal; lra.
Qed.

Lemma fmul_one_b2f (b : bool) : fmul (Fin 1) (b2f b) = b2f b.
Proof.
  destruct b; simpl; rewrite norm_small by lra; f_equal; lra.
Qed.

Lemma fmul_b2f_zero (b : bool) : fmul (b2f b) (Fin 0) = Fin 0.
Proof.
  destruct b; simpl; rewrite norm_small by lra; f_equal; lra.
Qed.

Lemma fadd_zero_l (a : npfloat) :
  match a with Fin x => - max_float <= x <= max_float | _ => True end ->
  fadd (Fin 0) a = a.
Proof.
  destruct a as [x| | |]; simpl; try reflexivity.
  intros H. rewrite Rplus_0_l. apply norm_fin, H.
Qed.

Lemma fadd_zero_norm (x : R) : fadd (Fin 0) (norm x) = norm x.
Proof.
  apply fadd_zero_l.
  destruct (norm_cases x) as [[E H]|[[E _]|[E _]]]; rewrite E; auto.
Qed.

(** ** The transmission model *)

Lemma nth_repeat_lt {A : Type} (a d : A) (n i : nat) :
  (i < n)%nat -> nth i (repeat a n) d = a.
Proof.
  revert i. induction n as [|n IH]; intros i Hi; [lia |].
  destruct i as [|i]; simpl; [reflexivity | apply IH; lia].
Qed.

(** C4: [transmission] returns an array of the length of its argument whose
    every element is 1, a value of the interval [0,1]; no condition on the
    distances is needed. *)
Theorem transmission_all_ones (distances : list npfloat) :
  length (transmission distances) = length distances
  /\ forall i, (i < length distances)%nat ->
       nth i (transmission distances) NaN = Fin 1
       /\ fle (Fin 0) (nth i (transmission distances) NaN) = true
       /\ fle (nth i (transmission distances) NaN) (Fin 1) = true.
Proof.
  unfold transmission. split; [apply repeat_length |].
  intros i Hi. rewrite nth_repeat_lt by exact Hi.
  repeat split; simpl; apply Rleb_true; lra.
Qed.

(** ** The step profiles *)

Lemma ground_profile_heaviside_fle (dist shift : npfloat) :
  ground_profile_heaviside dist (Some shift)
  = if fle dist shift then Fin 1 else Fin 0.
Proof.
  unfold ground_profile_heaviside, with_default.
  rewrite fmul_b2f_one, fmul_b2f_zero.
  destruct (fle dist shift); simpl; rewrite norm_small by lra; f_equal; lra.
Qed.

Lemma angular_profile_heaviside_fle (angles limit : npfloat) :
  angular_profile_heaviside angles limit
  = if fle angles limit then Fin 1 else Fin 0.
Proof.
  unfold angular_profile_heaviside. rewrite fmul_one_b2f.
  destruct (fle angles limit); reflexivity.
Qed.

(** C6: the two step profiles are 1 on inputs up to the threshold, the
    threshold included, and 0 above it; the ground profile takes 120 for a
    threshold that is not given. *)
Theorem heaviside_profiles_step (d s : R) :
  ground_profile_heaviside (Fin d) (Some (Fin s))
    = (if Rle_dec d s then Fin 1 else Fin 0)
  /\ ground_profile_heaviside (Fin d) None
    = (if Rle_dec d 120 then Fin 1 else Fin 0)
  /\ angular_profile_heaviside (Fin d) (Fin s)
    = (if Rle_dec d s then Fin 1 else Fin 0)
  /\ ground_profile_heaviside (Fin s) (Some (Fin s)) = Fin 1
  /\ angular_profile_heaviside (Fin s) (Fin s) = Fin 1.
Proof.
  repeat split.
  - rewrite ground_profile_heaviside_fle. simpl. unfold Rleb.
    destruct (Rle_dec d s); reflexivity.
  - change (ground_profile_heaviside (Fin d) None)
      with (ground_profile_heaviside (Fin d) (Some (Fin 120))).
    rewrite ground_profile_heaviside_fle. simpl. unfold Rleb.
    destruct (Rle_dec d 120); reflexivity.
  - rewrite angular_profile_heaviside_fle. simpl. unfold Rleb.
    destruct (Rle_dec d s); reflexivity.
  - rewrite ground_profile_heaviside_fle. simpl.
    rewrite Rleb_true by lra. reflexivity.
  - rewrite angular_profile_heaviside_fle. simpl.
    rewrite Rleb_true by lra. reflexivity.
Qed.

(** ** The ground falloff profile *)

(** Above the threshold the profile is the quotient [1/(dist - shift)]. *)
Lemma ground_profile_1_above (d s : R) :
  s < d ->
  ground_profile_1 (Fin d) (Some (Fin s))
  = fdiv (Fin 1) (fsub (Fin d) (Fin s)).
Proof.
  intros Hlt. unfold ground_profile_1, with_default.
  rewrite !fmul_b2f_one. simpl fle. simpl fgt.
  rewrite Rleb_false, Rltb_true by lra. simpl b2f.
  change (fsub (Fin d) (Fin s)) with (norm (d + - s)).
  destruct (norm_cases (d + - s)) as [[E H]|[[E H]|[E H]]]; rewrite E.
  - simpl fdiv. rewrite Reqb_false by lra. apply fadd_zero_norm.
  - simpl. rewrite norm_small by lra. f_equal. lra.
  - pose proof max_float_bound. lra.
Qed.

(** Below the threshold the profile is 1. *)
Lemma ground_profile_1_below (d s : R) :
  d < s -> ground_profile_1 (Fin d) (Some (Fin s)) = Fin 1.
Proof.
  intros Hlt. unfold ground_profile_1, with_default.
  rewrite !fmul_b2f_one. simpl fle. simpl fgt.
  rewrite Rleb_true, Rltb_false by lra. simpl b2f.
  change (fsub (Fin d) (Fin s)) with (norm (d + - s)).
  destruct (norm_cases (d + - s)) as [[E H]|[[E H]|[E H]]]; rewrite E.
  - simpl fdiv. rewrite Reqb_false by lra.
    replace (0 / (d + - s)) with 0 by (field; lra).
    rewrite norm_small by lra. simpl. rewrite norm_small by lra. f_equal. lra.
  - pose proof max_float_bound. lra.
  - simpl. rewrite norm_small by lra. f_equal. lra.
Qed.

(** The quotient of the second term is [0/0] when the input equals the
    threshold. *)
Lemma ground_profile_1_nan_at (x : R) :
  ground_profile_1 (Fin x) (Some (Fin x)) = NaN.
Proof.
  unfold ground_profile_1, with_default.
  rewrite !fmul_b2f_one. simpl fle. simpl fgt.
  rewrite Rleb_true, Rltb_false by lra. simpl b2f.
  change (fsub (Fin x) (Fin x)) with (norm (x + - x)).
  replace (x + - x) with 0 by lra.
  rewrite norm_small by lra. simpl fdiv.
  rewrite !Reqb_true by reflexivity. reflexivity.
Qed.

(** C3: at an input equal to the threshold, given or the default 120, the
    profile is NaN, not 1. *)
Theorem ground_profile_1_at_shift (s : R) :
  ground_profile_1 (Fin s) (Some (Fin s)) = NaN
  /\ ground_profile_1 (Fin 120) None = NaN.
Proof.
  split; [apply ground_profile_1_nan_at | apply (ground_profile_1_nan_at 120)].
Qed.




(** ** The power-law profile *)

(** C10: the result of [power_law_profile] does not depend on [alpha]; for
    every exponent, given or not, it is [1/(1 + dist)**2]. *)
Theorem power_law_profile_ignores_alpha (dist : npfloat) (alpha1 alpha2 : option npfloat) :
  power_law_profile dist alpha1 = power_law_profile dist alpha2
  /\ power_law_profile dist alpha1
     = fdiv (Fin 1) (fmul (fadd (Fin 1) dist) (fadd (Fin 1) dist)).
Proof.
  split; reflexivity.
Qed.

(** On a real distance of moderate size the value is the real number
    [1/(1 + x)^2], whatever the exponent. *)
Lemma power_law_profile_real (x : R) (alpha : option npfloat) :
  0 <= x <= 999 ->
  power_law_profile (Fin x) alpha = Fin (1 / (1 + x) ^ 2).
Proof.
  intros Hx. unfold power_law_profile. simpl.
  rewrite (@norm_small (1 + x)) by lra. simpl.
  rewrite (@norm_small ((1 + x) * (1 + x))) by nra. simpl.
  rewrite Reqb_false by nra.
  assert (Hq : 0 < 1 / ((1 + x) * (1 + x)) <= 1).
  { split.
    - apply Rdiv_lt_0_compat; nra.
    - apply Rmult_le_reg_r with ((1 + x) * (1 + x)); [nra |].
      unfold Rdiv. rewrite Rmult_assoc, Rinv_l by nra. nra. }
  rewrite norm_small by lra. f_equal. f_equal. ring.
Qed.

(** C2: with exponent 3 at distance 1 the function returns 1/4, the value of
    the formula for exponent 2, and not 1/8, the value of
    [1/(1 + dist)**alpha]. *)
Theorem power_law_profile_alpha_3 :
  power_law_profile (Fin 1) (Some (Fin 3)) = Fin (1 / 4)
  /\ fdiv (Fin 1) (fpow (fadd (Fin 1) (Fin 1)) 3) = Fin (1 / 8)
  /\ power_law_profile (Fin 1) (Some (Fin 3))
     <> fdiv (Fin 1) (fpow (fadd (Fin 1) (Fin 1)) 3).
Proof.
  assert (E1 : power_law_profile (Fin 1) (Some (Fin 3)) = Fin (1 / 4)).
  { rewrite power_law_profile_real by lra. apply f_equal. simpl. lra. }
  assert (E2 : fdiv (Fin 1) (fpow (fadd (Fin 1) (Fin 1)) 3) = Fin (1 / 8)).
  { simpl. rewrite (@norm_small (1 + 1)) by lra. simpl.
    rewrite (@norm_small ((1 + 1) * (1 + 1))) by lra. simpl.
    rewrite (@norm_small ((1 + 1) * ((1 + 1) * (1 + 1)))) by lra. simpl.
    rewrite Reqb_false by lra. rewrite norm_small by lra. apply f_equal. lra. }
  split; [exact E1 |]. split; [exact E2 |].
  rewrite E1, E2. intros H. injection H as H. lra.
Qed.

(** ** The exponential falloff profile *)

Lemma in_range_norm (x : R) : in_range (norm x).
Proof.
  destruct (norm_cases x) as [[E H]|[[E _]|[E _]]]; rewrite E; simpl; auto.
Qed.

Lemma in_range_fexp (a : npfloat) : in_range (fexp a).
Proof.
  destruct a; simpl; auto using in_range_norm.
  pose proof max_float_bound. lra.
Qed.

Lemma fmul_one_r (a : npfloat) : in_range a -> fmul a (Fin 1) = a.
Proof.
  destruct a as [x| | |]; simpl; intros H.
  - rewrite Rmult_1_r. apply norm_fin, H.
  - unfold inf_times. rewrite Reqb_false, Rltb_true by lra. reflexivity.
  - unfold inf_times. rewrite Reqb_false, Rltb_true by lra. reflexivity.
  - reflexivity.
Qed.

Lemma fmul_fin_zero_r (x : R) : fmul (Fin x) (Fin 0) = Fin 0.
Proof.
  simpl. rewrite Rmult_0_r. apply norm_small. lra.
Qed.

Lemma pow2_le_exp (n : nat) : 2 ^ n <= exp (INR n).
Proof.
  induction n as [|n IH].
  - simpl. rewrite exp_0. lra.
  - rewrite S_INR, exp_plus. simpl.
    pose proof (exp_ineq1_le 1) as H1.
    pose proof (exp_pos (INR n)) as Hp.
    assert (H0 : 0 < 2 ^ n) by (apply pow_lt; lra).
    nra.
Qed.

Lemma exp_2000_overflows : max_float < exp 2000.
Proof.
  apply Rlt_le_trans with (2 ^ 1024); [apply max_float_lt_pow |].
  apply Rle_trans with (2 ^ 2000); [apply Rle_pow; [lra | lia] |].
  replace 2000 with (INR 2000); [apply pow2_le_exp |].
  rewrite INR_IZR_INZ. reflexivity.
Qed.

(** At and above the break angle the profile is the exponential of the
    second term. *)
Lemma angular_profile_exp_falloff_above (a b alpha : R) :
  b <= a ->
  angular_profile_exp_falloff (Fin a) (Fin b) (Fin alpha)
  = fexp (fmul (fopp (Fin alpha)) (fsub (Fin a) (Fin b))).
Proof.
  intros Hle. unfold angular_profile_exp_falloff.
  rewrite fmul_one_b2f. simpl flt. unfold fge. simpl fle.
  rewrite Rltb_false, Rleb_true by lra. simpl b2f.
  rewrite fmul_one_r by apply in_range_fexp.
  apply fadd_zero_l.
  pose proof (in_range_fexp (fmul (fopp (Fin alpha)) (fsub (Fin a) (Fin b)))) as H.
  destruct (fexp _); exact H || exact I.
Qed.

(** At the break angle the exponential is [exp 0]: the profile is 1. *)
Lemma angular_profile_exp_falloff_at_break (b alpha : R) :
  angular_profile_exp_falloff (Fin b) (Fin b) (Fin alpha) = Fin 1.
Proof.
  rewrite angular_profile_exp_falloff_above by lra.
  change (fsub (Fin b) (Fin b)) with (norm (b + - b)).
  replace (b + - b) with 0 by lra.
  rewrite (@norm_small 0) by lra.
  simpl fopp. rewrite fmul_fin_zero_r. simpl.
  rewrite exp_0. apply norm_small. lra.
Qed.

(** Below the break angle the profile is 1 as long as the exponential of the
    second term is a finite number. *)
Lemma angular_profile_exp_falloff_below (a b alpha y : R) :
  a < b ->
  fexp (fmul (fopp (Fin alpha)) (fsub (Fin a) (Fin b))) = Fin y ->
  angular_profile_exp_falloff (Fin a) (Fin b) (Fin alpha) = Fin 1.
Proof.
  intros Hlt Hy. unfold angular_profile_exp_falloff.
  rewrite fmul_one_b2f. simpl flt. unfold fge. simpl fle.
  rewrite Rltb_true, Rleb_false by lra. simpl b2f.
  rewrite Hy, fmul_fin_zero_r. simpl.
  rewrite Rplus_0_r. apply norm_small. lra.
Qed.

(** C5: below the break angle the profile is not always 1.  With angle 0,
    break angle 1 and [alpha = 2000] the exponential of the second term
    overflows to infinity, its product with the false comparison is
    [inf * 0], and the profile is NaN. *)
Theorem angular_profile_exp_falloff_overflow :
  flt (Fin 0) (Fin 1) = true
  /\ angular_profile_exp_falloff (Fin 0) (Fin 1) (Fin 2000) = NaN.
Proof.
  split; [apply Rltb_true; lra |].
  unfold angular_profile_exp_falloff.
  rewrite fmul_one_b2f. simpl flt. unfold fge. simpl fle.
  rewrite Rltb_true, Rleb_false by lra. simpl b2f.
  assert (E : fmul (fopp (Fin 2000)) (fsub (Fin 0) (Fin 1)) = Fin 2000).
  { unfold fsub. simpl. rewrite norm_small by lra. simpl.
    rewrite norm_small by lra. apply f_equal. lra. }
  rewrite E. simpl fexp. rewrite norm_pinf by apply exp_2000_overflows.
  simpl. unfold inf_times. rewrite Reqb_true by reflexivity. reflexivity.
Qed.

(** ** Broadcasting *)

Lemma zip_with_length {A B C : Type} (f : A -> B -> C) (l1 : list A) (l2 : list B) :
  length l1 = length l2 -> length (zip_with f l1 l2) = length l1.
Proof.
  intros H. unfold zip_with. rewrite length_map, length_combine, <- H.
  apply Nat.min_id.
Qed.

Lemma zip_with_nth {A B C : Type} (f : A -> B -> C) (da : A) (db : B) (dc : C) :
  forall (l1 : list A) (l2 : list B) (i : nat),
    length l1 = length l2 -> (i < length l1)%nat ->
    nth i (zip_with f l1 l2) dc = f (nth i l1 da) (nth i l2 db).
Proof.
  unfold zip_with.
  induction l1 as [|a l1 IH]; intros l2 i Hlen Hi; simpl in *; [lia |].
  destruct l2 as [|b l2]; simpl in *; [discriminate |].
  destruct i as [|i]; [reflexivity |].
  apply IH; lia.
Qed.

Lemma broadcast2_same_length {A B C : Type} (f : A -> B -> C)
    (l1 : list A) (l2 : list B) :
  length l1 = length l2 ->
  broadcast2 f (Arr l1) (Arr l2) = Some (Arr (zip_with f l1 l2)).
Proof.
  intros H. simpl. rewrite H, Nat.eqb_refl. reflexivity.
Qed.

(** The product of a 1-d array with a value that fits it. *)
Lemma nd_mul_fits (l : list npfloat) (r : ndarray npfloat) :
  fits r (length l) ->
  exists p, nd_mul (Arr l) r = Some (Arr p)
    /\ length p = length l
    /\ forall i, (i < length l)%nat ->
         nth i p NaN = fmul (nth i l NaN) (nd_get r i).
Proof.
  destruct r as [b|l2]; intros H; simpl in H.
  - exists (map (fun a => fmul a b) l). split; [reflexivity |].
    split; [apply length_map |].
    intros i Hi.
    rewrite (nth_indep _ NaN (fmul NaN b)) by (rewrite length_map; exact Hi).
    apply (map_nth (fun a => fmul a b)).
  - exists (zip_with fmul l l2). unfold nd_mul.
    rewrite broadcast2_same_length by (symmetry; exact H).
    split; [reflexivity |].
    split; [apply zip_with_length; symmetry; exact H |].
    intros i Hi. apply zip_with_nth; [symmetry; exact H | exact Hi].
Qed.

Lemma rand_draws (n : nat) (w : World) :
  exists draws, fst (rand n w) = Some draws
    /\ length draws = n
    /\ forall i, (i < n)%nat -> nth i draws NaN = Fin (w_random w i).
Proof.
  exists (map (fun i => Fin (w_random w i)) (seq 0 n)).
  split; [reflexivity |]. split; [rewrite length_map; apply length_seq |].
  intros i Hi.
  rewrite (nth_indep _ NaN (Fin (w_random w 0%nat)))
    by (rewrite length_map, length_seq; exact Hi).
  rewrite (map_nth (fun i => Fin (w_random w i))).
  rewrite seq_nth by exact Hi. reflexivity.
Qed.

(** ** The mask *)

Section MaskProperties.

Variable distance_shower_camera_center : Shower -> Telescope -> list npfloat.
Variable altaz_to_normal : npfloat -> npfloat -> vec3.
Variable angle : vec3 -> vec3 -> npfloat.

Local Abbreviation mask :=
  (mask_transmitted_particles distance_shower_camera_center altaz_to_normal angle).
Local Abbreviation angles_of := (particle_angles altaz_to_normal angle).

(** C1: when the geometry provider gives one distance per particle and the
    profile returns a scalar or one value per angle, the call returns a 1-d
    boolean array with one element per particle, and element [i] is the
    comparison [transmission(distances)[i] * angular_profile(angles)[i] >
    draws[i]] with the [i]-th value of the generator.  The shower may have any
    number of particles. *)
Theorem mask_transmitted_particles_bits
    (angular_profile : profile) (args : list npfloat) (w : World)
    (r : ndarray npfloat) :
  length (distance_shower_camera_center (w_shower w) (w_tel w))
    = length (particles (w_shower w)) ->
  angular_profile (angles_of (w_tel w) (w_shower w)) args = Some r ->
  fits r (length (particles (w_shower w))) ->
  exists bits,
    fst (mask angular_profile args w) = Some (Arr bits)
    /\ length bits = length (particles (w_shower w))
    /\ forall i, (i < length (particles (w_shower w)))%nat ->
         nth i bits false
         = fgt (fmul (nth i (transmission
                        (distance_shower_camera_center (w_shower w) (w_tel w))) NaN)
                     (nd_get r i))
               (Fin (w_random w i)).
Proof.
  intros Hdist Hprof Hfits.
  set (n := length (particles (w_shower w))) in *.
  set (ts := transmission (distance_shower_camera_center (w_shower w) (w_tel w))).
  assert (Hts : length ts = n).
  { unfold ts, transmission. rewrite repeat_length. exact Hdist. }
  destruct (@nd_mul_fits ts r) as (p & Hmul & Hplen & Hp).
  { rewrite Hts. exact Hfits. }
  rewrite Hts in Hplen, Hp.
  destruct (rand_draws n w) as (draws & Hrand & Hdlen & Hd).
  exists (zip_with fgt p draws).
  split; [| split].
  - unfold mask_transmitted_particles, bind, get_tel, get_shower, lift.
    rewrite Hprof. fold ts. rewrite Hmul. fold n.
    destruct (rand n w) as [o w'] eqn:Er. simpl in Hrand. subst o.
    unfold nd_gt. rewrite broadcast2_same_length by lia. reflexivity.
  - rewrite zip_with_length by lia. exact Hplen.
  - intros i Hi.
    rewrite (zip_with_nth fgt NaN NaN false) by lia.
    rewrite Hp, Hd by exact Hi. reflexivity.
Qed.

(** C8: whatever the call returns or raises, the telescope and the shower
    are the same afterwards, field for field. *)
Theorem mask_transmitted_particles_frame
    (angular_profile : profile) (args : list npfloat) (w : World) :
  w_tel (snd (mask angular_profile args w)) = w_tel w
  /\ w_shower (snd (mask angular_profile args w)) = w_shower w.
Proof.
  unfold mask_transmitted_particles, bind, get_tel, get_shower, lift, rand.
  destruct (angular_profile _ args) as [r|]; [| split; reflexivity].
  destruct (nd_mul _ r) as [p|]; split; reflexivity.
Qed.

(** C9: two calls on the same telescope, shower, profile and arguments whose
    generators agree on the first [len(shower.particles)] values return the
    same result. *)
Theorem mask_transmitted_particles_deterministic
    (angular_profile : profile) (args : list npfloat) (w1 w2 : World) :
  w_tel w1 = w_tel w2 ->
  w_shower w1 = w_shower w2 ->
  (forall i, (i < length (particles (w_shower w1)))%nat ->
     w_random w1 i = w_random w2 i) ->
  fst (mask angular_profile args w1) = fst (mask angular_profile args w2).
Proof.
  intros Ht Hs Hr.
  unfold mask_transmitted_particles, bind, get_tel, get_shower, lift, rand.
  rewrite <- Ht, <- Hs.
  destruct (angular_profile _ args) as [r|]; [| reflexivity].
  destruct (nd_mul _ r) as [p|]; [| reflexivity].
  simpl.
  assert (E : map (fun i => Fin (w_random w1 i))
                (seq 0 (length (particles (w_shower w1))))
              = map (fun i => Fin (w_random w2 i))
                  (seq 0 (length (particles (w_shower w1))))).
  { apply map_ext_in. intros i Hi. apply in_seq in Hi.
    apply f_equal, Hr. lia. }
  rewrite E. reflexivity.
Qed.

End MaskProperties.

(** The statements on the sample world: two particles, the angular step
    profile with limit 1, every draw equal to [1/2]. *)

Lemma mask_transmitted_particles_bits_witness :
  length (Sample.distance (w_shower Sample.world) (w_tel Sample.world))
    = length (particles (w_shower Sample.world))
  /\ exists bits,
       fst (mask_transmitted_particles Sample.distance Sample.direction
              Sample.angle call_angular_profile_heaviside [Fin 1] Sample.world)
         = Some (Arr bits)
       /\ length bits = 2%nat
       /\ forall i, (i < 2)%nat ->
            nth i bits false
            = fgt (fmul (nth i (transmission [Fin 0; Fin 0]) NaN)
                        (nd_get (Arr [angular_profile_heaviside (Fin 0) (Fin 1);
                                      angular_profile_heaviside (Fin 0) (Fin 1)]) i))
                  (Fin (/ 2)).
Proof.
  split; [reflexivity |].
  apply (@mask_transmitted_particles_bits Sample.distance Sample.direction
           Sample.angle call_angular_profile_heaviside [Fin 1] Sample.world
           (Arr [angular_profile_heaviside (Fin 0) (Fin 1);
                 angular_profile_heaviside (Fin 0) (Fin 1)]));
    reflexivity.
Defined.

Lemma mask_transmitted_particles_deterministic_witness :
  (forall i, (i < length (particles (w_shower Sample.world)))%nat ->
     w_random Sample.world i = w_random Sample.world' i)
  /\ fst (mask_transmitted_particles Sample.distance Sample.direction
            Sample.angle call_angular_profile_heaviside [Fin 1] Sample.world)
     = fst (mask_transmitted_particles Sample.distance Sample.direction
              Sample.angle call_angular_profile_heaviside [Fin 1] Sample.world').
Proof.
  assert (H : forall i, (i < length (particles (w_shower Sample.world)))%nat ->
                w_random Sample.world i = w_random Sample.world' i).
  { intros i Hi. simpl in Hi. simpl.
    destruct (Nat.ltb_spec i 2); [reflexivity | lia]. }
  split; [exact H |].
  apply (@mask_transmitted_particles_deterministic Sample.distance
           Sample.direction Sample.angle call_angular_profile_heaviside
           [Fin 1] Sample.world Sample.world' eq_refl eq_refl H).
Defined.

(** On the sample world the step profile accepts both particles, and the
    ground falloff profile with threshold 0 rejects both: every angle equals
    the threshold, the profile is NaN there, and no comparison with NaN
    holds. *)
Example sample_mask_heaviside :
  fst (mask_transmitted_particles Sample.distance Sample.direction
         Sample.angle call_angular_profile_heaviside [Fin 1] Sample.world)
  = Some (Arr [true; true]).
Proof.
  unfold mask_transmitted_particles, bind, get_tel, get_shower, lift. simpl.
  unfold Sample.angle, Sample.distance, transmission, zip_with.
  rewrite angular_profile_heaviside_fle. simpl.
  rewrite Rleb_true by lra.
  rewrite (@norm_small (1 * 1)) by lra. unfold fgt. simpl.
  rewrite Rltb_true by lra. reflexivity.
Qed.

Example sample_mask_ground_profile_1 :
  fst (mask_transmitted_particles Sample.distance Sample.direction
         Sample.angle call_ground_profile_1 [Fin 0] Sample.world)
  = Some (Arr [false; false]).
Proof.
  unfold mask_transmitted_particles, bind, get_tel, get_shower, lift.
  change (call_ground_profile_1
            (particle_angles Sample.direction Sample.angle
               (w_tel Sample.world) (w_shower Sample.world)) [Fin 0])
    with (Some (Arr [ground_profile_1 (Fin 0) (Some (Fin 0));
                     ground_profile_1 (Fin 0) (Some (Fin 0))])).
  rewrite ground_profile_1_nan_at. reflexivity.
Qed.

(** * Further properties of the profiles *)

Lemma Rinv_unit_interval (z : R) : 1 <= z -> 0 < 1 / z <= 1.
Proof.
  intros Hz. split.
  - apply Rdiv_lt_0_compat; lra.
  - apply Rmult_le_reg_r with z; [lra |].
    unfold Rdiv. rewrite Rmult_assoc, Rinv_l by lra. lra.
Qed.

(** X1: on a distance between 0 and a million the power-law profile is a
    finite number, positive and at most 1. *)
Theorem power_law_profile_unit_interval (x : R) (alpha : option npfloat) :
  0 <= x -> x <= 1000000 ->
  exists v, power_law_profile (Fin x) alpha = Fin v /\ 0 < v <= 1.
Proof.
  intros Hx Hhi. unfold power_law_profile. simpl.
  pose proof max_float_large as Hlarge. simpl in Hlarge.
  rewrite (@norm_fin (1 + x)) by lra. simpl.
  rewrite (@norm_fin ((1 + x) * (1 + x))) by nra. simpl.
  rewrite Reqb_false by nra.
  destruct (@Rinv_unit_interval ((1 + x) * (1 + x))) as [Hq1 Hq2]; [nra |].
  rewrite norm_small by lra.
  exists (1 / ((1 + x) * (1 + x))). split; [reflexivity | lra].
Qed.

Lemma power_law_profile_unit_interval_witness :
  0 <= 3 /\ 3 <= 1000000
  /\ exists v, power_law_profile (Fin 3) None = Fin v /\ 0 < v <= 1.
Proof.
  repeat split; try lra.
  apply (@power_law_profile_unit_interval 3 None); lra.
Defined.

(** X2: the power-law profile does not increase with the distance. *)
Theorem power_law_profile_nonincreasing (x y : R) (alpha : option npfloat) :
  0 <= x -> x <= y -> y <= 999 ->
  fle (power_law_profile (Fin y) alpha) (power_law_profile (Fin x) alpha) = true.
Proof.
  intros Hx Hxy Hy.
  rewrite !power_law_profile_real by lra. simpl.
  apply Rleb_true. unfold Rdiv. rewrite !Rmult_1_l.
  apply Rinv_le_contravar; nra.
Qed.

Lemma power_law_profile_nonincreasing_witness :
  0 <= 1 /\ 1 <= 2 /\ 2 <= 999
  /\ fle (power_law_profile (Fin 2) None) (power_law_profile (Fin 1) None) = true.
Proof.
  repeat split; try lra.
  apply (@power_law_profile_nonincreasing 1 2 None); lra.
Defined.

Lemma fle_norm_mono (x y : R) : x <= y -> fle (norm x) (norm y) = true.
Proof.
  intros Hxy.
  destruct (norm_cases x) as [[Ex Hx]|[[Ex Hx]|[Ex Hx]]];
    destruct (norm_cases y) as [[Ey Hy]|[[Ey Hy]|[Ey Hy]]];
    rewrite Ex, Ey; simpl; try reflexivity;
    try (apply Rleb_true; lra); pose proof max_float_bound; lra.
Qed.

(** X4: the step profiles are defined on every value, NaN and the infinities
    included: the result is the comparison [input <= threshold] as 0 or 1, so
    a NaN input or a NaN threshold gives 0, and [-inf] is accepted by any
    threshold that is a number. *)
Theorem heaviside_profiles_special_values (dist shift : npfloat) :
  ground_profile_heaviside dist (Some shift) = b2f (fle dist shift)
  /\ angular_profile_heaviside dist shift = b2f (fle dist shift)
  /\ ground_profile_heaviside NaN (Some shift) = Fin 0
  /\ ground_profile_heaviside dist (Some NaN) = Fin 0
  /\ angular_profile_heaviside NaN shift = Fin 0
  /\ angular_profile_heaviside dist NaN = Fin 0
  /\ ground_profile_heaviside PInf None = Fin 0
  /\ ground_profile_heaviside NInf None = Fin 1.
Proof.
  assert (G : forall d s, ground_profile_heaviside d (Some s) = b2f (fle d s)).
  { intros d s. rewrite ground_profile_heaviside_fle. destruct (fle d s); reflexivity. }
  assert (A : forall d s, angular_profile_heaviside d s = b2f (fle d s)).
  { intros d s. rewrite angular_profile_heaviside_fle. destruct (fle d s); reflexivity. }
  repeat split.
  - apply G.
  - apply A.
  - rewrite G. reflexivity.
  - rewrite G. destruct dist; reflexivity.
  - rewrite A. reflexivity.
  - rewrite A. destruct dist; reflexivity.
  - change (ground_profile_heaviside PInf None)
      with (ground_profile_heaviside PInf (Some (Fin 120))).
    rewrite G. reflexivity.
  - change (ground_profile_heaviside NInf None)
      with (ground_profile_heaviside NInf (Some (Fin 120))).
    rewrite G. reflexivity.
Qed.

(** X5: strictly below the threshold the ground falloff profile is exactly 1,
    also when the difference [dist - shift] overflows. *)
Theorem ground_profile_1_one_below (d s : R) :
  d < s ->
  ground_profile_1 (Fin d) (Some (Fin s)) = Fin 1
  /\ (d < 120 -> ground_profile_1 (Fin d) None = Fin 1).
Proof.
  intros Hlt. split; [apply ground_profile_1_below, Hlt |].
  intros H120.
  change (ground_profile_1 (Fin d) None)
    with (ground_profile_1 (Fin d) (Some (Fin 120))).
  apply ground_profile_1_below, H120.
Qed.

Lemma ground_profile_1_one_below_witness :
  100 < 120 /\ ground_profile_1 (Fin 100) (Some (Fin 120)) = Fin 1.
Proof.
  split; [lra |].
  assert (H : 100 < 120) by lra.
  exact (proj1 (@ground_profile_1_one_below 100 120 H)).
Defined.

(** X6: at least one unit above the threshold the ground falloff profile is a
    number of [0,1]. *)
Theorem ground_profile_1_unit_interval_far (d s : R) :
  s + 1 <= d ->
  exists v, ground_profile_1 (Fin d) (Some (Fin s)) = Fin v /\ 0 <= v <= 1.
Proof.
  intros Hd. rewrite ground_profile_1_above by lra.
  change (fsub (Fin d) (Fin s)) with (norm (d + - s)).
  destruct (norm_cases (d + - s)) as [[E H]|[[E H]|[E H]]]; rewrite E.
  - simpl. rewrite Reqb_false by lra.
    destruct (@Rinv_unit_interval (d + - s)) as [Hq1 Hq2]; [lra |].
    rewrite norm_small by lra.
    exists (1 / (d + - s)). split; [reflexivity | lra].
  - exists 0. split; [reflexivity | lra].
  - pose proof max_float_bound. lra.
Qed.

Lemma ground_profile_1_unit_interval_far_witness :
  120 + 1 <= 130
  /\ exists v, ground_profile_1 (Fin 130) (Some (Fin 120)) = Fin v /\ 0 <= v <= 1.
Proof.
  split; [lra |].
  apply (@ground_profile_1_unit_interval_far 130 120). lra.
Defined.

(** X7: above the threshold the ground falloff profile does not increase with
    the distance. *)
Theorem ground_profile_1_nonincreasing (d1 d2 s : R) :
  s < d1 -> d1 <= d2 ->
  fle (ground_profile_1 (Fin d2) (Some (Fin s)))
      (ground_profile_1 (Fin d1) (Some (Fin s))) = true.
Proof.
  intros H1 H12. rewrite !ground_profile_1_above by lra.
  change (fsub (Fin d2) (Fin s)) with (norm (d2 + - s)).
  change (fsub (Fin d1) (Fin s)) with (norm (d1 + - s)).
  assert (Hpos : forall t, 0 < t -> 0 <= 1 / t).
  { intros t Ht. apply Rlt_le, Rdiv_lt_0_compat; lra. }
  assert (Hz : forall t, 0 <= t -> fle (Fin 0) (norm t) = true).
  { intros t Ht. rewrite <- (@norm_small 0) by lra. apply fle_norm_mono, Ht. }
  pose proof max_float_bound as Hmax.
  destruct (norm_cases (d2 + - s)) as [[E2 B2]|[[E2 B2]|[E2 B2]]]; rewrite E2;
    destruct (norm_cases (d1 + - s)) as [[E1 B1]|[[E1 B1]|[E1 B1]]]; rewrite E1;
    simpl; try lra.
  - rewrite !Reqb_false by lra. apply fle_norm_mono.
    unfold Rdiv. rewrite !Rmult_1_l. apply Rinv_le_contravar; lra.
  - rewrite Reqb_false by lra. apply Hz, Hpos. lra.
  - apply Rleb_true. lra.
Qed.

Lemma ground_profile_1_nonincreasing_witness :
  120 < 121 /\ 121 <= 130
  /\ fle (ground_profile_1 (Fin 130) (Some (Fin 120)))
         (ground_profile_1 (Fin 121) (Some (Fin 120))) = true.
Proof.
  repeat split; try lra.
  apply (@ground_profile_1_nonincreasing 121 130 120); lra.
Defined.

Lemma exp_le_pow3 (n : nat) : exp (INR n) <= 3 ^ n.
Proof.
  induction n as [|n IH].
  - simpl. rewrite exp_0. lra.
  - rewrite S_INR, exp_plus. simpl.
    pose proof exp_le_3 as H3.
    pose proof (exp_pos (INR n)) as Hp.
    pose proof (exp_pos 1) as H1.
    nra.
Qed.

Lemma exp_600_finite : exp 600 <= max_float.
Proof.
  apply Rle_trans with (2 ^ 1023).
  - apply Rle_trans with (3 ^ 600).
    + replace 600 with (INR 600); [apply exp_le_pow3 |].
      rewrite INR_IZR_INZ. reflexivity.
    + apply Rle_trans with (2 ^ 960); [| apply Rle_pow; [lra | lia]].
      replace (3 ^ 600) with ((3 ^ 5) ^ 120) by (rewrite <- pow_mult; reflexivity).
      replace (2 ^ 960) with ((2 ^ 8) ^ 120) by (rewrite <- pow_mult; reflexivity).
      apply pow_incr. split.
      * apply pow_le. lra.
      * simpl. lra.
  - unfold max_float.
    assert (Hpos : 0 < 2 ^ 1023) by (apply pow_lt; lra).
    assert (H52 : 1 <= 2 ^ 52) by (apply pow_R1_Rle; lra).
    assert (Hinv : / 2 ^ 52 <= 1).
    { rewrite <- Rinv_1. apply Rinv_le_contravar; lra. }
    nra.
Qed.

Lemma exp_le_mono (x y : R) : x <= y -> exp x <= exp y.
Proof.
  intros [H|H]; [apply Rlt_le, exp_increasing, H | subst; lra].
Qed.

(** X8: at the break angle the exponential falloff profile is exactly 1, for
    every break angle and every [alpha]. *)
Theorem angular_profile_exp_falloff_continuous (b alpha : R) :
  angular_profile_exp_falloff (Fin b) (Fin b) (Fin alpha) = Fin 1
  /\ fexp (fmul (fopp (Fin alpha)) (fsub (Fin b) (Fin b))) = Fin 1.
Proof.
  split; [apply angular_profile_exp_falloff_at_break |].
  rewrite <- angular_profile_exp_falloff_above by lra.
  apply angular_profile_exp_falloff_at_break.
Qed.

(** X9: with a positive [alpha], at and above the break angle the profile is
    a number of [0,1], however far the angle is. *)
Theorem angular_profile_exp_falloff_unit_interval (a b alpha : R) :
  0 < alpha -> b <= a ->
  exists v, angular_profile_exp_falloff (Fin a) (Fin b) (Fin alpha) = Fin v
            /\ 0 <= v <= 1.
Proof.
  intros Halpha Hba. rewrite angular_profile_exp_falloff_above by lra.
  change (fsub (Fin a) (Fin b)) with (norm (a + - b)). simpl fopp.
  pose proof max_float_bound as Hmax.
  destruct (norm_cases (a + - b)) as [[E B]|[[E B]|[E B]]]; rewrite E.
  - simpl fmul.
    destruct (norm_cases (- alpha * (a + - b))) as [[E2 B2]|[[E2 B2]|[E2 B2]]];
      rewrite E2.
    + simpl.
      assert (Hexp : 0 < exp (- alpha * (a + - b)) <= 1).
      { split; [apply exp_pos |]. rewrite <- exp_0. apply exp_le_mono. nra. }
      rewrite norm_small by lra.
      exists (exp (- alpha * (a + - b))). split; [reflexivity | lra].
    + nra.
    + exists 0. split; [reflexivity | lra].
  - simpl. unfold inf_times.
    rewrite Reqb_false, Rltb_false by lra. simpl.
    exists 0. split; [reflexivity | lra].
  - lra.
Qed.

Lemma angular_profile_exp_falloff_unit_interval_witness :
  0 < 2 /\ 1 <= 3
  /\ exists v, angular_profile_exp_falloff (Fin 3) (Fin 1) (Fin 2) = Fin v
               /\ 0 <= v <= 1.
Proof.
  repeat split; try lra.
  apply (@angular_profile_exp_falloff_unit_interval 3 1 2); lra.
Defined.

(** X10: with a negative [alpha] the profile is never below 1 above the
    break angle, and it is greater than 2 once
    [-alpha * (angle - break_angle)] reaches 1. *)
Theorem angular_profile_exp_falloff_negative_alpha (a b alpha : R) :
  alpha < 0 -> b < a ->
  fge (angular_profile_exp_falloff (Fin a) (Fin b) (Fin alpha)) (Fin 1) = true
  /\ (1 <= - alpha * (a - b) ->
      fgt (angular_profile_exp_falloff (Fin a) (Fin b) (Fin alpha)) (Fin 2)
      = true).
Proof.
  intros Halpha Hba. rewrite angular_profile_exp_falloff_above by lra.
  change (fsub (Fin a) (Fin b)) with (norm (a + - b)). simpl fopp.
  pose proof max_float_bound as Hmax.
  unfold fge, fgt.
  destruct (norm_cases (a + - b)) as [[E B]|[[E B]|[E B]]]; rewrite E.
  - simpl fmul.
    destruct (norm_cases (- alpha * (a + - b))) as [[E2 B2]|[[E2 B2]|[E2 B2]]];
      rewrite E2.
    + simpl fexp.
      assert (Hexp : 1 < exp (- alpha * (a + - b))).
      { rewrite <- exp_0. apply exp_increasing. nra. }
      assert (Hexp2 : 1 <= - alpha * (a - b) -> 2 < exp (- alpha * (a + - b))).
      { intros Hp. apply Rlt_le_trans with (exp 1).
        - pose proof (exp_ineq1 1). lra.
        - apply exp_le_mono. lra. }
      destruct (norm_cases (exp (- alpha * (a + - b)))) as [[E3 _]|[[E3 _]|[E3 B3]]];
        rewrite E3.
      * split; [apply Rleb_true; lra | intros Hp; apply Rltb_true, Hexp2, Hp].
      * split; reflexivity.
      * lra.
    + split; reflexivity.
    + nra.
  - simpl. unfold inf_times.
    rewrite Reqb_false, Rltb_true by lra. split; reflexivity.
  - lra.
Qed.

Lemma angular_profile_exp_falloff_negative_alpha_witness :
  -1 < 0 /\ 1 < 2 /\ 1 <= - (-1) * (2 - 1)
  /\ fgt (angular_profile_exp_falloff (Fin 2) (Fin 1) (Fin (-1))) (Fin 2) = true.
Proof.
  assert (H1 : -1 < 0) by lra.
  assert (H2 : 1 < 2) by lra.
  assert (H3 : 1 <= - (-1) * (2 - 1)) by lra.
  repeat split; try assumption.
  exact (proj2 (@angular_profile_exp_falloff_negative_alpha 2 1 (-1) H1 H2) H3).
Defined.

(** X11: below the break angle the profile is exactly 1 as long as
    [alpha * (break_angle - angle)] is at most 600, so that the exponential of
    the unused branch stays finite. *)
Theorem angular_profile_exp_falloff_one_below (a b alpha : R) :
  a < b -> -1000000 <= a -> b <= 1000000 ->
  alpha * (b - a) <= 600 ->
  angular_profile_exp_falloff (Fin a) (Fin b) (Fin alpha) = Fin 1.
Proof.
  intros Hab Ha Hb Hprod.
  pose proof max_float_large as Hmax. simpl in Hmax.
  assert (Hy : exists y, fexp (fmul (fopp (Fin alpha)) (fsub (Fin a) (Fin b))) = Fin y).
  { change (fsub (Fin a) (Fin b)) with (norm (a + - b)). simpl fopp.
    rewrite (@norm_fin (a + - b)) by lra. simpl fmul.
    destruct (norm_cases (- alpha * (a + - b))) as [[E2 B2]|[[E2 B2]|[E2 B2]]];
      rewrite E2.
    - simpl.
      assert (Hexp : 0 < exp (- alpha * (a + - b)) <= max_float).
      { split; [apply exp_pos |].
        apply Rle_trans with (exp 600); [| apply exp_600_finite].
        apply exp_le_mono. lra. }
      rewrite norm_fin by lra. eexists. reflexivity.
    - lra.
    - exists 0. reflexivity. }
  destruct Hy as [y Hy].
  exact (angular_profile_exp_falloff_below alpha Hab Hy).
Qed.

Lemma angular_profile_exp_falloff_one_below_witness :
  0 < 1 /\ -1000000 <= 0 /\ 1 <= 1000000 /\ 2 * (1 - 0) <= 600
  /\ angular_profile_exp_falloff (Fin 0) (Fin 1) (Fin 2) = Fin 1.
Proof.
  repeat split; try lra.
  apply (@angular_profile_exp_falloff_one_below 0 1 2); lra.
Defined.

(** * Further properties of the mask *)

Lemma nth_map_seq {A : Type} (f : nat -> A) (d : A) (n i : nat) :
  (i < n)%nat -> nth i (map f (seq 0 n)) d = f i.
Proof.
  intros Hi.
  rewrite (nth_indep _ d (f 0%nat)) by (rewrite length_map, length_seq; exact Hi).
  rewrite (map_nth f). rewrite seq_nth by exact Hi. reflexivity.
Qed.

Lemma list_eq_nth {A : Type} (d : A) (l1 l2 : list A) :
  length l1 = length l2 ->
  (forall i, (i < length l1)%nat -> nth i l1 d = nth i l2 d) ->
  l1 = l2.
Proof.
  intros Hlen H. apply (nth_ext l1 l2 d d Hlen H).
Qed.

Lemma fmul_one_l (a : npfloat) : in_range a -> fmul (Fin 1) a = a.
Proof.
  destruct a as [x| | |]; simpl; intros H.
  - rewrite Rmult_1_l. apply norm_fin, H.
  - unfold inf_times. rewrite Reqb_false, Rltb_true by lra. reflexivity.
  - unfold inf_times. rewrite Reqb_false, Rltb_true by lra. reflexivity.
  - reflexivity.
Qed.

Section MaskRuns.

Variable distance_shower_camera_center : Shower -> Telescope -> list npfloat.
Variable altaz_to_normal : npfloat -> npfloat -> vec3.
Variable angle : vec3 -> vec3 -> npfloat.

Local Abbreviation mask :=
  (mask_transmitted_particles distance_shower_camera_center altaz_to_normal angle).
Local Abbreviation angles_of := (particle_angles altaz_to_normal angle).

(** The whole run of a call whose collaborators keep their contracts: the
    bits in closed form and the world it leaves. *)
Lemma mask_run (angular_profile : profile) (args : list npfloat) (w : World)
    (r : ndarray npfloat) :
  length (distance_shower_camera_center (w_shower w) (w_tel w))
    = length (particles (w_shower w)) ->
  angular_profile (angles_of (w_tel w) (w_shower w)) args = Some r ->
  fits r (length (particles (w_shower w))) ->
  mask angular_profile args w
  = (Some (Arr (map (fun i => fgt (fmul (Fin 1) (nd_get r i)) (Fin (w_random w i)))
                    (seq 0 (length (particles (w_shower w)))))),
     snd (rand (length (particles (w_shower w))) w)).
Proof.
  intros Hdist Hprof Hfits.
  set (n := length (particles (w_shower w))) in *.
  set (ts := transmission (distance_shower_camera_center (w_shower w) (w_tel w))).
  assert (Hts : length ts = n).
  { unfold ts, transmission. rewrite repeat_length. exact Hdist. }
  destruct (@nd_mul_fits ts r) as (p & Hmul & Hplen & Hp).
  { rewrite Hts. exact Hfits. }
  rewrite Hts in Hplen, Hp.
  unfold mask_transmitted_particles, bind, get_tel, get_shower, lift.
  rewrite Hprof. fold ts. rewrite Hmul. fold n.
  unfold rand at 1. cbv beta iota.
  unfold nd_gt. rewrite broadcast2_same_length
    by (rewrite length_map, length_seq; lia).
  simpl snd.
  assert (E : zip_with fgt p (map (fun i => Fin (w_random w i)) (seq 0 n))
              = map (fun i => fgt (fmul (Fin 1) (nd_get r i)) (Fin (w_random w i)))
                    (seq 0 n)); [| rewrite E; reflexivity].
  apply (@list_eq_nth _ false).
  - rewrite zip_with_length by (rewrite length_map, length_seq; lia).
    rewrite length_map, length_seq. exact Hplen.
  - intros i Hi.
    rewrite zip_with_length in Hi by (rewrite length_map, length_seq; lia).
    rewrite (zip_with_nth fgt NaN NaN false)
      by (rewrite ?length_map, ?length_seq; lia).
    rewrite !nth_map_seq by lia. rewrite Hp by lia.
    unfold ts, transmission. rewrite nth_repeat_lt by lia. reflexivity.
Qed.

Lemma particle_angles_length (tel : Telescope) (shower : Shower) :
  length (angles_of tel shower) = length (particles shower).
Proof. unfold particle_angles. apply length_map. Qed.

(** X12: with the constant profile and draws below 1 every particle is
    accepted. *)
Theorem mask_constant_profile_all_true (w : World) :
  length (distance_shower_camera_center (w_shower w) (w_tel w))
    = length (particles (w_shower w)) ->
  (forall i, (i < length (particles (w_shower w)))%nat -> w_random w i < 1) ->
  fst (mask call_constant_profile [] w)
  = Some (Arr (repeat true (length (particles (w_shower w))))).
Proof.
  intros Hdist Hdraw.
  rewrite (@mask_run call_constant_profile [] w (Scalar (Fin 1)) Hdist eq_refl I).
  simpl fst. do 2 apply f_equal.
  apply (@list_eq_nth _ false).
  - rewrite length_map, length_seq, repeat_length. reflexivity.
  - intros i Hi. rewrite length_map, length_seq in Hi.
    rewrite nth_map_seq, nth_repeat_lt by exact Hi.
    simpl nd_get. cbv beta. simpl.
    rewrite (@norm_small (1 * 1)) by lra.
    apply Rltb_true. pose proof (Hdraw i Hi). lra.
Qed.

(** X13: when the profile raises, the call raises before anything is drawn:
    the generator, the telescope and the shower are as before. *)
Theorem mask_profile_error_draws_nothing
    (angular_profile : profile) (args : list npfloat) (w : World) :
  angular_profile (angles_of (w_tel w) (w_shower w)) args = None ->
  mask angular_profile args w = (None, w).
Proof.
  intros H. unfold mask_transmitted_particles, bind, get_tel, get_shower, lift.
  rewrite H. reflexivity.
Qed.

(** X14: a call that returns has advanced the generator by exactly
    [len(shower.particles)] values. *)
Theorem mask_generator_advance
    (angular_profile : profile) (args : list npfloat) (w : World)
    (bits : ndarray bool) :
  fst (mask angular_profile args w) = Some bits ->
  forall i, w_random (snd (mask angular_profile args w)) i
            = w_random w (length (particles (w_shower w)) + i)%nat.
Proof.
  unfold mask_transmitted_particles, bind, get_tel, get_shower, lift, rand.
  destruct (angular_profile _ args) as [r|]; [| discriminate].
  destruct (nd_mul _ r) as [p|]; [| discriminate].
  intros _ i. reflexivity.
Qed.

(** X15: a particle whose profile value is NaN is rejected whatever the
    draw. *)
Theorem mask_nan_probability_rejected
    (angular_profile : profile) (args : list npfloat) (w : World)
    (r : ndarray npfloat) (i : nat) :
  length (distance_shower_camera_center (w_shower w) (w_tel w))
    = length (particles (w_shower w)) ->
  angular_profile (angles_of (w_tel w) (w_shower w)) args = Some r ->
  fits r (length (particles (w_shower w))) ->
  (i < length (particles (w_shower w)))%nat ->
  nd_get r i = NaN ->
  exists bits, fst (mask angular_profile args w) = Some (Arr bits)
               /\ nth i bits true = false.
Proof.
  intros Hdist Hprof Hfits Hi Hnan.
  rewrite (@mask_run angular_profile args w r Hdist Hprof Hfits). simpl fst.
  eexists. split; [reflexivity |].
  rewrite nth_map_seq by exact Hi. rewrite Hnan. reflexivity.
Qed.

(** X16: with the angular step profile and draws in [0,1) the mask is the
    cut [angle <= limit] itself. *)
Theorem mask_heaviside_is_angular_cut (limit : npfloat) (w : World) :
  length (distance_shower_camera_center (w_shower w) (w_tel w))
    = length (particles (w_shower w)) ->
  (forall i, (i < length (particles (w_shower w)))%nat ->
     0 <= w_random w i < 1) ->
  fst (mask call_angular_profile_heaviside [limit] w)
  = Some (Arr (map (fun a => fle a limit) (angles_of (w_tel w) (w_shower w)))).
Proof.
  intros Hdist Hdraw.
  set (angles := angles_of (w_tel w) (w_shower w)).
  assert (Hlen : length angles = length (particles (w_shower w)))
    by apply particle_angles_length.
  rewrite (@mask_run call_angular_profile_heaviside [limit] w
             (Arr (map (fun a => angular_profile_heaviside a limit) angles))
             Hdist eq_refl)
    by (simpl; rewrite length_map; exact Hlen).
  simpl fst. do 2 apply f_equal.
  apply (@list_eq_nth _ false).
  - rewrite !length_map, length_seq. symmetry. exact Hlen.
  - intros i Hi. rewrite length_map, length_seq in Hi.
    rewrite nth_map_seq by exact Hi. simpl nd_get.
    rewrite (nth_indep _ NaN (angular_profile_heaviside NaN limit))
      by (rewrite length_map; lia).
    rewrite (map_nth (fun a => angular_profile_heaviside a limit)).
    rewrite (nth_indep _ false (fle NaN limit)) by (rewrite length_map; lia).
    rewrite (map_nth (fun a => fle a limit)).
    rewrite angular_profile_heaviside_fle.
    destruct (Hdraw i Hi) as [H0 H1].
    destruct (fle (nth i angles NaN) limit).
    + rewrite (@norm_small (1 * 1)) by lra. apply Rltb_true. lra.
    + rewrite (@norm_small (1 * 0)) by lra. apply Rltb_false. lra.
Qed.

(** X17: when the geometry provider returns a number of distances that is
    neither 1 nor the number of values of the profile, the product of the two
    arrays raises, and nothing has been drawn. *)
Theorem mask_shape_mismatch_raises
    (angular_profile : profile) (args : list npfloat) (w : World)
    (l : list npfloat) :
  angular_profile (angles_of (w_tel w) (w_shower w)) args = Some (Arr l) ->
  length (distance_shower_camera_center (w_shower w) (w_tel w)) <> length l ->
  length (distance_shower_camera_center (w_shower w) (w_tel w)) <> 1%nat ->
  length l <> 1%nat ->
  mask angular_profile args w = (None, w).
Proof.
  intros Hprof Hne H1 H2.
  unfold mask_transmitted_particles, bind, get_tel, get_shower, lift.
  rewrite Hprof.
  assert (E : nd_mul (Arr (transmission
                (distance_shower_camera_center (w_shower w) (w_tel w)))) (Arr l)
              = None).
  { unfold nd_mul, broadcast2, transmission. rewrite repeat_length.
    destruct (Nat.eqb_spec
                (length (distance_shower_camera_center (w_shower w) (w_tel w)))
                (length l)) as [E|_]; [contradiction |].
    destruct (length (distance_shower_camera_center (w_shower w) (w_tel w)))
      as [|[|m]]; simpl.
    - destruct l as [|b [|c l']]; simpl in *; try reflexivity; congruence.
    - congruence.
    - destruct l as [|b [|c l']]; simpl in *; try reflexivity; congruence. }
  rewrite E. reflexivity.
Qed.

End MaskRuns.

Lemma sample_draws_in_unit_interval (i : nat) :
  (i < length (particles (w_shower Sample.world)))%nat ->
  0 <= w_random Sample.world i < 1.
Proof. intros _. simpl. lra. Qed.

Lemma mask_constant_profile_all_true_witness :
  (forall i, (i < length (particles (w_shower Sample.world)))%nat ->
     w_random Sample.world i < 1)
  /\ fst (mask_transmitted_particles Sample.distance Sample.direction
            Sample.angle call_constant_profile [] Sample.world)
     = Some (Arr [true; true]).
Proof.
  assert (H : forall i, (i < length (particles (w_shower Sample.world)))%nat ->
                w_random Sample.world i < 1).
  { intros i Hi. apply sample_draws_in_unit_interval, Hi. }
  split; [exact H |].
  exact (@mask_constant_profile_all_true Sample.distance Sample.direction
           Sample.angle Sample.world eq_refl H).
Defined.

Lemma mask_profile_error_draws_nothing_witness :
  call_angular_profile_heaviside
    (particle_angles Sample.direction Sample.angle
       (w_tel Sample.world) (w_shower Sample.world)) [] = None
  /\ mask_transmitted_particles Sample.distance Sample.direction Sample.angle
       call_angular_profile_heaviside [] Sample.world
     = (None, Sample.world).
Proof.
  split; [reflexivity |].
  exact (@mask_profile_error_draws_nothing Sample.distance Sample.direction
           Sample.angle call_angular_profile_heaviside [] Sample.world eq_refl).
Defined.

Lemma mask_generator_advance_witness :
  fst (mask_transmitted_particles Sample.distance Sample.direction
         Sample.angle call_angular_profile_heaviside [Fin 1] Sample.world)
    = Some (Arr [true; true])
  /\ forall i,
       w_random (snd (mask_transmitted_particles Sample.distance
                        Sample.direction Sample.angle
                        call_angular_profile_heaviside [Fin 1] Sample.world)) i
       = w_random Sample.world (2 + i)%nat.
Proof.
  split; [exact sample_mask_heaviside |].
  exact (@mask_generator_advance Sample.distance Sample.direction Sample.angle
           call_angular_profile_heaviside [Fin 1] Sample.world _
           sample_mask_heaviside).
Defined.

Lemma mask_nan_probability_rejected_witness :
  nd_get (Arr [ground_profile_1 (Fin 0) (Some (Fin 0));
               ground_profile_1 (Fin 0) (Some (Fin 0))]) 0 = NaN
  /\ exists bits,
       fst (mask_transmitted_particles Sample.distance Sample.direction
              Sample.angle call_ground_profile_1 [Fin 0] Sample.world)
         = Some (Arr bits)
       /\ nth 0 bits true = false.
Proof.
  assert (H : nd_get (Arr [ground_profile_1 (Fin 0) (Some (Fin 0));
                           ground_profile_1 (Fin 0) (Some (Fin 0))]) 0 = NaN).
  { simpl. apply ground_profile_1_nan_at. }
  split; [exact H |].
  apply (@mask_nan_probability_rejected Sample.distance Sample.direction
           Sample.angle call_ground_profile_1 [Fin 0] Sample.world
           (Arr [ground_profile_1 (Fin 0) (Some (Fin 0));
                 ground_profile_1 (Fin 0) (Some (Fin 0))]) 0%nat
           eq_refl eq_refl eq_refl).
  - simpl. lia.
  - exact H.
Defined.

Lemma mask_heaviside_is_angular_cut_witness :
  (forall i, (i < length (particles (w_shower Sample.world)))%nat ->
     0 <= w_random Sample.world i < 1)
  /\ fst (mask_transmitted_particles Sample.distance Sample.direction
            Sample.angle call_angular_profile_heaviside [Fin 1] Sample.world)
     = Some (Arr [fle (Fin 0) (Fin 1); fle (Fin 0) (Fin 1)]).
Proof.
  split; [exact sample_draws_in_unit_interval |].
  exact (@mask_heaviside_is_angular_cut Sample.distance Sample.direction
           Sample.angle (Fin 1) Sample.world eq_refl
           sample_draws_in_unit_interval).
Defined.

Lemma mask_shape_mismatch_raises_witness :
  mask_transmitted_particles (fun _ _ => [Fin 0; Fin 0; Fin 0])
    Sample.direction Sample.angle call_angular_profile_heaviside [Fin 1]
    Sample.world
  = (None, Sample.world).
Proof.
  apply (@mask_shape_mismatch_raises (fun _ _ => [Fin 0; Fin 0; Fin 0])
           Sample.direction Sample.angle call_angular_profile_heaviside
           [Fin 1] Sample.world
           [angular_profile_heaviside (Fin 0) (Fin 1);
            angular_profile_heaviside (Fin 0) (Fin 1)] eq_refl);
    simpl; lia.
Defined.

(** * Properties of the plots *)

Lemma for_each_emits {A : Type} (body : A -> Plot unit) (cmds : A -> list plot_cmd) :
  (forall x log, body x log = (Ok tt, log ++ cmds x)) ->
  forall l log, for_each l body log = (Ok tt, log ++ flat_map cmds l).
Proof.
  intros Hbody. induction l as [|x l IH]; intros log; simpl.
  - unfold pret. rewrite app_nil_r. reflexivity.
  - unfold pbind. rewrite Hbody, IH, <- app_assoc. reflexivity.
Qed.

Lemma nd_iadd_same_length (acc x : list npfloat) :
  length x = length acc -> nd_iadd acc x = Ok (zip_with fadd acc x).
Proof.
  intros H. unfold nd_iadd. rewrite H, Nat.eqb_refl. reflexivity.
Qed.

(** The accumulation loop on histograms of one length: element [i] of the
    result is the sum, taken in the order of the array, of the elements
    [i]. *)
Lemma stack_hists_sum (telescope_array : list Telescope) :
  forall acc,
    (forall tel, In tel telescope_array -> length (signal_hist tel) = length acc) ->
    exists stacked,
      stack_hists acc telescope_array = Ok stacked
      /\ length stacked = length acc
      /\ forall i, (i < length acc)%nat ->
           nth i stacked NaN
           = fold_left (fun a tel => fadd a (nth i (signal_hist tel) NaN))
               telescope_array (nth i acc NaN).
Proof.
  induction telescope_array as [|tel rest IH]; intros acc Hlen; simpl.
  - exists acc. repeat split; reflexivity.
  - assert (Ht : length (signal_hist tel) = length acc) by (apply Hlen; left; reflexivity).
    rewrite nd_iadd_same_length by exact Ht.
    assert (Hz : length (zip_with fadd acc (signal_hist tel)) = length acc)
      by (apply zip_with_length; symmetry; exact Ht).
    destruct (IH (zip_with fadd acc (signal_hist tel))) as (st & Hst & Hl & Hn).
    { intros t Hin. rewrite Hz. apply Hlen. right. exact Hin. }
    exists st. split; [exact Hst |]. split; [rewrite Hl; exact Hz |].
    intros i Hi. rewrite Hn by (rewrite Hz; exact Hi).
    rewrite (zip_with_nth fadd NaN NaN NaN) by (auto; lia). reflexivity.
Qed.

Lemma forallb_same_length (l0 : nat) (telescope_array : list Telescope) :
  forallb (fun tel => Nat.eqb (length (signal_hist tel)) l0) telescope_array = true
  <-> forall tel, In tel telescope_array -> length (signal_hist tel) = l0.
Proof.
  rewrite forallb_forall. split; intros H tel Hin.
  - apply Nat.eqb_eq, H, Hin.
  - apply Nat.eqb_eq, H, Hin.
Qed.

(** X18: [display_stacked_cameras] raises [IndexError] on an empty array and
    [AssertionError] when a camera has not as many pixels as the first one;
    in both cases nothing has been plotted. *)
Theorem display_stacked_cameras_rejects
    (tel0 tel : Telescope) (rest : list Telescope) (log : list plot_cmd) :
  In tel rest ->
  length (signal_hist tel) <> length (signal_hist tel0) ->
  display_stacked_cameras [] log = (Raise IndexError, log)
  /\ display_stacked_cameras (tel0 :: rest) log = (Raise AssertionError, log).
Proof.
  intros Hin Hne. split; [reflexivity |].
  unfold display_stacked_cameras.
  destruct (forallb _ (tel0 :: rest)) eqn:E; [| reflexivity].
  exfalso. apply Hne.
  apply (proj1 (forallb_same_length _ (tel0 :: rest)) E). right. exact Hin.
Qed.

Lemma display_stacked_cameras_rejects_witness :
  In SampleArray.tel_c [SampleArray.tel_b; SampleArray.tel_c]
  /\ display_stacked_cameras
       [SampleArray.tel_a; SampleArray.tel_b; SampleArray.tel_c] []
     = (Raise AssertionError, []).
Proof.
  assert (Hin : In SampleArray.tel_c [SampleArray.tel_b; SampleArray.tel_c])
    by (right; left; reflexivity).
  split; [exact Hin |].
  apply (@display_stacked_cameras_rejects SampleArray.tel_a SampleArray.tel_c
           [SampleArray.tel_b; SampleArray.tel_c] [] Hin).
  simpl. lia.
Defined.

(** X19: on cameras of one size, [display_stacked_cameras] plots one scatter
    at the pixel positions of the first telescope, coloured by the
    element-wise sum of all histograms, then sets the axes and the colour
    bar; it does not call [plt.show]. *)
Theorem display_stacked_cameras_sum
    (tel0 : Telescope) (rest : list Telescope) (log : list plot_cmd) :
  (forall tel, In tel rest ->
     length (signal_hist tel) = length (signal_hist tel0)) ->
  exists stacked,
    display_stacked_cameras (tel0 :: rest) log
    = (Ok tt, log ++ [Scatter (map fst (pixel_tab tel0)) (map snd (pixel_tab tel0))
                              (Some stacked) None;
                      AxisEqual; Colorbar "counts"])
    /\ length stacked = length (signal_hist tel0)
    /\ forall i, (i < length (signal_hist tel0))%nat ->
         nth i stacked NaN
         = fold_left (fun a tel => fadd a (nth i (signal_hist tel) NaN))
             (tel0 :: rest) (Fin 0).
Proof.
  intros Hlen.
  assert (Hall : forall tel, In tel (tel0 :: rest) ->
            length (signal_hist tel) = length (signal_hist tel0)).
  { intros tel [E|Hin]; [subst; reflexivity | apply Hlen, Hin]. }
  destruct (@stack_hists_sum (tel0 :: rest)
              (repeat (Fin 0) (length (signal_hist tel0))))
    as (st & Hst & Hl & Hn).
  { intros tel Hin. rewrite repeat_length. apply Hall, Hin. }
  rewrite repeat_length in Hl, Hn.
  exists st. split; [| split; [exact Hl |]].
  - unfold display_stacked_cameras.
    rewrite (proj2 (forallb_same_length _ (tel0 :: rest)) Hall).
    unfold pbind, plift, emit. rewrite Hst.
    rewrite <- !app_assoc. reflexivity.
  - intros i Hi. rewrite Hn by exact Hi.
    rewrite nth_repeat_lt by exact Hi. reflexivity.
Qed.

Lemma display_stacked_cameras_sum_witness :
  (forall tel, In tel [SampleArray.tel_b] ->
     length (signal_hist tel) = length (signal_hist SampleArray.tel_a))
  /\ exists stacked,
       display_stacked_cameras [SampleArray.tel_a; SampleArray.tel_b] []
       = (Ok tt, [Scatter [Fin 0; Fin 1] [Fin 0; Fin 0] (Some stacked) None;
                  AxisEqual; Colorbar "counts"])
       /\ length stacked = 2%nat
       /\ forall i, (i < 2)%nat ->
            nth i stacked NaN
            = fold_left (fun a tel => fadd a (nth i (signal_hist tel) NaN))
                [SampleArray.tel_a; SampleArray.tel_b] (Fin 0).
Proof.
  assert (H : forall tel, In tel [SampleArray.tel_b] ->
            length (signal_hist tel) = length (signal_hist SampleArray.tel_a)).
  { intros tel [E|[]]. subst. reflexivity. }
  split; [exact H |].
  exact (@display_stacked_cameras_sum SampleArray.tel_a [SampleArray.tel_b] [] H).
Defined.

Lemma zip_with_fadd_zeros (l : list npfloat) :
  Forall in_range l -> zip_with fadd (repeat (Fin 0) (length l)) l = l.
Proof.
  induction 1 as [|x l Hx Hl IH]; [reflexivity |].
  change (zip_with fadd (repeat (Fin 0) (length (x :: l))) (x :: l))
    with (fadd (Fin 0) x :: zip_with fadd (repeat (Fin 0) (length l)) l).
  rewrite IH, fadd_zero_l by exact Hx. reflexivity.
Qed.

(** X20: stacking a single camera whose counts are in range plots the scatter
    of [display_camera_image] of that telescope, same positions and same
    colours, without opening a figure and without [plt.show]. *)
Theorem display_stacked_cameras_single (telescope : Telescope) :
  Forall in_range (signal_hist telescope) ->
  display_stacked_cameras [telescope] []
  = (Ok tt, [Scatter (map fst (pixel_tab telescope)) (map snd (pixel_tab telescope))
                     (Some (signal_hist telescope)) None;
             AxisEqual; Colorbar "counts"])
  /\ display_camera_image telescope None []
  = (Ok tt, [Figure (PyPair 8 8);
             Scatter (map fst (pixel_tab telescope)) (map snd (pixel_tab telescope))
                     (Some (signal_hist telescope)) (Some (Fin 27));
             AxisEqual; Colorbar "counts"; Show]).
Proof.
  intros Hrange. split; [| reflexivity].
  unfold display_stacked_cameras.
  rewrite (proj2 (forallb_same_length _ [telescope]))
    by (intros tel [E|[]]; subst; reflexivity).
  simpl stack_hists.
  rewrite nd_iadd_same_length by (rewrite repeat_length; reflexivity).
  unfold pbind, plift, emit. rewrite zip_with_fadd_zeros by exact Hrange.
  reflexivity.
Qed.

Lemma display_stacked_cameras_single_witness :
  Forall in_range (signal_hist SampleArray.tel_a)
  /\ display_stacked_cameras [SampleArray.tel_a] []
     = (Ok tt, [Scatter [Fin 0; Fin 1] [Fin 0; Fin 0] (Some [Fin 1; Fin 2]) None;
                AxisEqual; Colorbar "counts"]).
Proof.
  assert (H : Forall in_range (signal_hist SampleArray.tel_a)).
  { pose proof max_float_bound.
    repeat constructor; simpl; lra. }
  split; [exact H |].
  exact (proj1 (@display_stacked_cameras_single SampleArray.tel_a H)).
Defined.

(** The two calls [display_pointing_tel] makes when it must not show. *)
Lemma display_pointing_tel_no_show (tel : Telescope) (log : list plot_cmd) :
  display_pointing_tel tel (Some false) log
  = (Ok tt, log ++ [Axes;
                    Arrow (v0 (camera_center tel)) (v1 (camera_center tel))
                          (v0 (normal tel)) (v1 (normal tel))]).
Proof.
  unfold display_pointing_tel, pbind, emit, pret. simpl.
  rewrite <- app_assoc. reflexivity.
Qed.


Lemma fold_fmin_bounded (lo hi : R) (l : list npfloat) :
  forall x, lo <= x <= hi ->
    Forall (fun a => exists y, a = Fin y /\ lo <= y <= hi) l ->
    exists m, fold_left fmin l (Fin x) = Fin m
              /\ lo <= m <= hi /\ m <= x
              /\ Forall (fun a => forall y, a = Fin y -> m <= y) l.
Proof.
  induction l as [|a l IH]; intros x Hx Hl; cbn [fold_left].
  - exists x. repeat split; try lra. constructor.
  - inversion Hl as [|? ? (y & Ea & Hy) Hl']; subst.
    assert (Hstep : exists z, fmin (Fin x) (Fin y) = Fin z
                              /\ lo <= z <= hi /\ z <= x /\ z <= y).
    { simpl. unfold Rltb. destruct (Rlt_dec y x).
      - exists y. repeat split; lra.
      - exists x. repeat split; lra. }
    destruct Hstep as (z & Ez & Hz & Hzx & Hzy). rewrite Ez.
    destruct (IH z Hz Hl') as (m & Em & Hm & Hmz & Hall).
    exists m. split; [exact Em |]. repeat split; try lra.
    constructor; [| exact Hall].
    intros y' Ey'. injection Ey' as Ey'. lra.
Qed.

Lemma fold_fmax_bounded (lo hi : R) (l : list npfloat) :
  forall x, lo <= x <= hi ->
    Forall (fun a => exists y, a = Fin y /\ lo <= y <= hi) l ->
    exists m, fold_left fmax l (Fin x) = Fin m
              /\ lo <= m <= hi /\ x <= m
              /\ Forall (fun a => forall y, a = Fin y -> y <= m) l.
Proof.
  induction l as [|a l IH]; intros x Hx Hl; cbn [fold_left].
  - exists x. repeat split; try lra. constructor.
  - inversion Hl as [|? ? (y & Ea & Hy) Hl']; subst.
    assert (Hstep : exists z, fmax (Fin x) (Fin y) = Fin z
                              /\ lo <= z <= hi /\ x <= z /\ y <= z).
    { simpl. unfold Rltb. destruct (Rlt_dec x y).
      - exists y. repeat split; lra.
      - exists x. repeat split; lra. }
    destruct Hstep as (z & Ez & Hz & Hzx & Hzy). rewrite Ez.
    destruct (IH z Hz Hl') as (m & Em & Hm & Hmz & Hall).
    exists m. split; [exact Em |]. repeat split; try lra.
    constructor; [| exact Hall].
    intros y' Ey'. injection Ey' as Ey'. lra.
Qed.

(** The minimum and the maximum of a column of finite, bounded values. *)
Lemma column_min_max (f : Telescope -> npfloat) (lo hi : R)
    (tel0 : Telescope) (rest : list Telescope) :
  (forall tel, In tel (tel0 :: rest) -> exists x, f tel = Fin x /\ lo <= x <= hi) ->
  exists m M,
    nd_min (map f (tel0 :: rest)) = Ok (Fin m)
    /\ nd_max (map f (tel0 :: rest)) = Ok (Fin M)
    /\ lo <= m <= hi /\ lo <= M <= hi
    /\ forall tel x, In tel (tel0 :: rest) -> f tel = Fin x -> m <= x <= M.
Proof.
  intros Hfin.
  destruct (Hfin tel0 (or_introl eq_refl)) as (x0 & E0 & H0).
  assert (Hrest : Forall (fun a => exists y, a = Fin y /\ lo <= y <= hi) (map f rest)).
  { apply Forall_forall. intros a Ha. apply in_map_iff in Ha.
    destruct Ha as (tel & Ea & Hin). subst a. apply Hfin. right. exact Hin. }
  destruct (@fold_fmin_bounded lo hi (map f rest) x0 H0 Hrest)
    as (m & Em & Hm & Hmx & Hmall).
  destruct (@fold_fmax_bounded lo hi (map f rest) x0 H0 Hrest)
    as (M & EM & HM & HMx & HMall).
  exists m, M. cbn [map nd_min nd_max]. rewrite E0, Em, EM.
  repeat split; try lra.
  - destruct H as [E|Hin].
    + subst tel. rewrite E0 in H1. injection H1 as H1. lra.
    + rewrite Forall_forall in Hmall. apply (Hmall (f tel)); [| exact H1].
      apply in_map, Hin.
  - destruct H as [E|Hin].
    + subst tel. rewrite E0 in H1. injection H1 as H1. lra.
    + rewrite Forall_forall in HMall. apply (HMall (f tel)); [| exact H1].
      apply in_map, Hin.
Qed.

(** X22: when the mirror centres are finite and within a million metres,
    [display_pointing_array] returns, and the axis limits it sets are finite
    and contain every mirror centre with a margin of at least 49 on each
    side. *)
Theorem display_pointing_array_window
    (tel0 : Telescope) (rest : list Telescope) (log : list plot_cmd) :
  (forall tel, In tel (tel0 :: rest) ->
     exists x, v0 (mirror_center tel) = Fin x /\ -1000000 <= x <= 1000000) ->
  (forall tel, In tel (tel0 :: rest) ->
     exists y, v1 (mirror_center tel) = Fin y /\ -1000000 <= y <= 1000000) ->
  exists xmin xmax ymin ymax,
    display_pointing_array (tel0 :: rest) log
    = (Ok tt,
       log
       ++ flat_map (fun tel =>
              [Axes;
               Arrow (v0 (camera_center tel)) (v1 (camera_center tel))
                     (v0 (normal tel)) (v1 (normal tel))]) (tel0 :: rest)
       ++ [AxisEqual; AxisLimits [Fin xmin; Fin xmax; Fin ymin; Fin ymax]; Show])
    /\ forall tel x y, In tel (tel0 :: rest) ->
         v0 (mirror_center tel) = Fin x -> v1 (mirror_center tel) = Fin y ->
         xmin + 49 <= x <= xmax - 49 /\ ymin + 49 <= y <= ymax - 49.
Proof.
  intros Hx Hy.
  destruct (@column_min_max (fun tel => v0 (mirror_center tel)) _ _ tel0 rest Hx)
    as (mx & Mx & Emx & EMx & Hmx & HMx & Hxs).
  destruct (@column_min_max (fun tel => v1 (mirror_center tel)) _ _ tel0 rest Hy)
    as (my & My & Emy & EMy & Hmy & HMy & Hys).
  exists (mx + - 50), (Mx + 50), (my + - 50), (My + 50). split.
  - unfold display_pointing_array.
    cbn [map]. rewrite !map_map.
    cbn [map] in Emx, EMx, Emy, EMy.
    unfold pbind, plift.
    change (nd_min (v0 (mirror_center tel0)
                    :: map (fun x => v0 (mirror_center x)) rest))
      with (nd_min (map (fun tel => v0 (mirror_center tel)) (tel0 :: rest))).
    change (nd_max (v0 (mirror_center tel0)
                    :: map (fun x => v0 (mirror_center x)) rest))
      with (nd_max (map (fun tel => v0 (mirror_center tel)) (tel0 :: rest))).
    change (nd_min (v1 (mirror_center tel0)
                    :: map (fun x => v1 (mirror_center x)) rest))
      with (nd_min (map (fun tel => v1 (mirror_center tel)) (tel0 :: rest))).
    change (nd_max (v1 (mirror_center tel0)
                    :: map (fun x => v1 (mirror_center x)) rest))
      with (nd_max (map (fun tel => v1 (mirror_center tel)) (tel0 :: rest))).
    cbn [map]. rewrite Emx, EMx, Emy, EMy.
    rewrite (for_each_emits _ _ (fun tel log => display_pointing_tel_no_show tel log)).
    unfold fsub. simpl fopp. simpl fadd.
    pose proof max_float_large as Hlarge. simpl in Hlarge.
    rewrite !norm_fin by lra.
    unfold axis_limits. cbn [forallb is_finite andb].
    unfold emit. rewrite <- !app_assoc. reflexivity.
  - intros tel x y Hin Ex Ey.
    pose proof (Hxs tel x Hin Ex). pose proof (Hys tel y Hin Ey). lra.
Qed.

Lemma display_pointing_array_window_witness :
  (forall tel, In tel [SampleArray.tel_a; SampleArray.tel_b] ->
     exists x, v0 (mirror_center tel) = Fin x /\ -1000000 <= x <= 1000000)
  /\ exists xmin xmax ymin ymax,
       snd (display_pointing_array [SampleArray.tel_a; SampleArray.tel_b] [])
       = [Axes; Arrow (Fin 0) (Fin 0) (Fin 0) (Fin 1);
          Axes; Arrow (Fin 100) (Fin 50) (Fin 1) (Fin 0);
          AxisEqual; AxisLimits [Fin xmin; Fin xmax; Fin ymin; Fin ymax]; Show]
       /\ xmin + 49 <= 0 /\ 100 <= xmax - 49 /\ ymin + 49 <= 0 /\ 50 <= ymax - 49.
Proof.
  assert (Hx : forall tel, In tel [SampleArray.tel_a; SampleArray.tel_b] ->
     exists x, v0 (mirror_center tel) = Fin x /\ -1000000 <= x <= 1000000).
  { intros tel [E|[E|[]]]; subst; simpl; eexists; (split; [reflexivity | lra]). }
  assert (Hy : forall tel, In tel [SampleArray.tel_a; SampleArray.tel_b] ->
     exists y, v1 (mirror_center tel) = Fin y /\ -1000000 <= y <= 1000000).
  { intros tel [E|[E|[]]]; subst; simpl; eexists; (split; [reflexivity | lra]). }
  split; [exact Hx |].
  destruct (@display_pointing_array_window SampleArray.tel_a [SampleArray.tel_b]
              [] Hx Hy) as (xmin & xmax & ymin & ymax & Hrun & Hwin).
  exists xmin, xmax, ymin, ymax. split; [rewrite Hrun; reflexivity |].
  destruct (Hwin SampleArray.tel_a 0 0 (or_introl eq_refl) eq_refl eq_refl)
    as [[Ha1 _] [Ha2 _]].
  destruct (Hwin SampleArray.tel_b 100 50 (or_intror (or_introl eq_refl))
              eq_refl eq_refl) as [[_ Hb1] [_ Hb2]].
  repeat split; assumption.
Defined.

Lemma loop_variable_last {A : Type} (front : list A) (x : A) :
  loop_variable (front ++ [x]) = Some x.
Proof.
  induction front as [|a front IH]; [reflexivity |].
  simpl. rewrite IH. destruct (front ++ [x]) eqn:E; [| reflexivity].
  destruct front; discriminate.
Qed.

Section PlotShowerProperties.

Variable gaussian_kde_density :
  list npfloat * list npfloat * list npfloat -> result (list npfloat).

Local Abbreviation plot := (plot_shower3d gaussian_kde_density).

(** The circle of a telescope and the circle of the impact point. *)
Local Abbreviation tel_circle tel :=
  {| circle_x := v0 (mirror_center tel);
     circle_y := v1 (mirror_center tel);
     circle_radius := Fin 30;
     circle_color := "black" |}.

Local Abbreviation impact_circle shower :=
  {| circle_x := v0 (impact_point shower);
     circle_y := v1 (impact_point shower);
     circle_radius := Fin 15;
     circle_color := "red" |}.

Local Abbreviation tel_patches alltel :=
  (flat_map (fun tel => [AddPatch (tel_circle tel);
                         PathPatch2dTo3d (tel_circle tel) (v2 (mirror_center tel))])
            alltel).

Local Abbreviation figure_of options :=
  (Figure (if truthy (dict_get options "figsize")
           then dict_get options "figsize" else PyPair 12 12)).

Lemma tel_patches_emitted (alltel : list Telescope) (log : list plot_cmd) :
  for_each alltel (fun tel =>
      _ <~ emit (AddPatch (tel_circle tel)) ;;
      emit (PathPatch2dTo3d (tel_circle tel) (v2 (mirror_center tel)))) log
  = (Ok tt, log ++ tel_patches alltel).
Proof.
  apply for_each_emits. intros tel l. unfold pbind, emit.
  rewrite <- app_assoc. reflexivity.
Qed.

(** The run of [plot_shower3d] without the density colouring, on a list of
    telescopes whose last one is [tel_last]. *)
Lemma plot_shower3d_run (shower : Shower) (alltel : list Telescope)
    (tel_last : Telescope) (options : list (string * pyval)) :
  loop_variable alltel = Some tel_last ->
  eq_True (dict_get options "density_color") = false ->
  plot shower alltel options []
  = (if truthy (dict_get options "outfile")
     then match dict_get options "outfile" with
          | PyStr _ => Ok tt
          | _ => Raise AssertionError
          end
     else Ok tt,
     [figure_of options; AddSubplot3d]
     ++ tel_patches alltel
     ++ [AddPatch (impact_circle shower);
         PathPatch2dTo3d (impact_circle shower) (v2 (mirror_center tel_last));
         Scatter3d (map v0 (particles shower)) (map v1 (particles shower))
                   (map v2 (particles shower)) None;
         AxisLimits [Fin (-1000); Fin 1000; Fin (-1000); Fin 1000];
         SetXLabel "[m]"; SetZLabel "altitude [m]"]
     ++ (if eq_True (dict_get options "display") then [Show] else [])
     ++ (if truthy (dict_get options "outfile")
         then match dict_get options "outfile" with
              | PyStr outfile => [SaveFig (outfile ++ ".eps")]
              | _ => []
              end
         else [])).
Proof.
  intros Hlast Hdens. unfold plot_shower3d.
  unfold pbind at 1. unfold emit at 1. cbn [app].
  unfold pbind at 1. unfold emit at 1. cbn [app].
  unfold pbind at 1. rewrite tel_patches_emitted.
  rewrite Hlast, Hdens.
  unfold pbind, emit, pret, raise. cbn [fst snd].
  destruct (eq_True (dict_get options "display"));
    destruct (dict_get options "outfile") as [|b|z|s|pa pb];
    cbn [truthy]; try destruct b; try destruct (negb _);
    rewrite <- ?app_assoc; cbn [app]; rewrite ?app_nil_r; reflexivity.
Qed.

(** X23: without any telescope [plot_shower3d] raises [UnboundLocalError]
    where it reads the loop variable [tel], after it has opened the figure
    and added the circle of the impact point. *)
Theorem plot_shower3d_no_telescope (shower : Shower)
    (options : list (string * pyval)) (log : list plot_cmd) :
  plot shower [] options log
  = (Raise UnboundLocalError,
     log ++ [figure_of options; AddSubplot3d; AddPatch (impact_circle shower)]).
Proof.
  unfold plot_shower3d, pbind, emit, pret, raise. cbn [for_each loop_variable].
  unfold pret. rewrite <- !app_assoc. reflexivity.
Qed.

(** X24: the circle of the impact point is lifted to the altitude of the
    last telescope of the list, whatever the options. *)
Theorem plot_shower3d_impact_altitude (shower : Shower)
    (front : list Telescope) (tel_last : Telescope)
    (options : list (string * pyval)) :
  exists res tail,
    plot shower (front ++ [tel_last]) options []
    = (res,
       [figure_of options; AddSubplot3d]
       ++ tel_patches (front ++ [tel_last])
       ++ [AddPatch (impact_circle shower);
           PathPatch2dTo3d (impact_circle shower) (v2 (mirror_center tel_last))]
       ++ tail).
Proof.
  unfold plot_shower3d.
  unfold pbind at 1. unfold emit at 1. cbn [app].
  unfold pbind at 1. unfold emit at 1. cbn [app].
  unfold pbind at 1. rewrite tel_patches_emitted.
  rewrite loop_variable_last.
  unfold pbind, emit, pret, raise, plift. cbn [fst snd].
  destruct (eq_True (dict_get options "density_color"));
    [destruct (gaussian_kde_density _) |];
    destruct (eq_True (dict_get options "display"));
    destruct (dict_get options "outfile") as [|b|z|s|pa pb];
    cbn [truthy]; try destruct b; try destruct (negb _);
    eexists; eexists; rewrite <- ?app_assoc; cbn [app]; reflexivity.
Qed.

(** X25: with at least one telescope and the density colouring off, a
    truthy [outfile] that is not a string raises [AssertionError] at the very
    end: nothing is saved, and the figure has been drawn, and shown when
    [display] was set. *)
Theorem plot_shower3d_outfile_not_str (shower : Shower)
    (alltel : list Telescope) (tel_last : Telescope)
    (options : list (string * pyval)) :
  loop_variable alltel = Some tel_last ->
  eq_True (dict_get options "density_color") = false ->
  truthy (dict_get options "outfile") = true ->
  (forall s, dict_get options "outfile" <> PyStr s) ->
  fst (plot shower alltel options []) = Raise AssertionError
  /\ (forall fname, ~ In (SaveFig fname) (snd (plot shower alltel options [])))
  /\ (eq_True (dict_get options "display") = true ->
      In Show (snd (plot shower alltel options []))).
Proof.
  intros Hlast Hdens Htruthy Hnot.
  rewrite (plot_shower3d_run shower alltel options Hlast Hdens).
  rewrite Htruthy. cbn [fst snd].
  assert (Hres : match dict_get options "outfile" with
                 | PyStr _ => Ok tt
                 | _ => Raise AssertionError
                 end = Raise AssertionError).
  { destruct (dict_get options "outfile") as [|b|z|s|pa pb]; try reflexivity.
    exfalso. apply (Hnot s). reflexivity. }
  assert (Hsave : match dict_get options "outfile" with
                  | PyStr outfile => [SaveFig (outfile ++ ".eps")]
                  | _ => []
                  end = []).
  { destruct (dict_get options "outfile") as [|b|z|s|pa pb]; try reflexivity.
    exfalso. apply (Hnot s). reflexivity. }
  rewrite Hres, Hsave. split; [reflexivity |]. split.
  - intros fname Hin.
    repeat (apply in_app_or in Hin; destruct Hin as [Hin|Hin]).
    + destruct Hin as [E|[E|[]]]; discriminate.
    + apply in_flat_map in Hin. destruct Hin as (tel & _ & [E|[E|[]]]); discriminate.
    + repeat (destruct Hin as [E|Hin]; [discriminate |]). exact Hin.
    + destruct (eq_True (dict_get options "display"));
        repeat (destruct Hin as [E|Hin]; [discriminate |]); exact Hin.
    + exact Hin.
  - intros Hdisp. rewrite Hdisp.
    apply in_or_app. right. apply in_or_app. right. apply in_or_app. right.
    apply in_or_app. left. left. reflexivity.
Qed.

(** X26: a non-empty string [outfile] saves the figure, as the last call,
    under the name [outfile + '.eps']. *)
Theorem plot_shower3d_saves_eps (shower : Shower)
    (alltel : list Telescope) (tel_last : Telescope)
    (options : list (string * pyval)) (outfile : string) :
  loop_variable alltel = Some tel_last ->
  eq_True (dict_get options "density_color") = false ->
  dict_get options "outfile" = PyStr outfile ->
  outfile <> ""%string ->
  exists log,
    plot shower alltel options [] = (Ok tt, log ++ [SaveFig (outfile ++ ".eps")])
    /\ forall fname, ~ In (SaveFig fname) log.
Proof.
  intros Hlast Hdens Hout Hne.
  rewrite (plot_shower3d_run shower alltel options Hlast Hdens).
  rewrite Hout. cbn [truthy].
  assert (Hnb : negb (String.eqb outfile "") = true).
  { apply negb_true_iff. apply String.eqb_neq. exact Hne. }
  rewrite Hnb.
  eexists. split.
  - rewrite !app_assoc. reflexivity.
  - intros fname Hin.
    repeat (apply in_app_or in Hin; destruct Hin as [Hin|Hin]).
    + destruct Hin as [E|[E|[]]]; discriminate.
    + apply in_flat_map in Hin. destruct Hin as (tel & _ & [E|[E|[]]]); discriminate.
    + repeat (destruct Hin as [E|Hin]; [discriminate |]). exact Hin.
    + destruct (eq_True (dict_get options "display"));
        repeat (destruct Hin as [E|Hin]; [discriminate |]); exact Hin.
Qed.

End PlotShowerProperties.

Lemma plot_shower3d_outfile_not_str_witness :
  truthy (dict_get [("outfile", PyInt 3); ("display", PyBool true)]%string
            "outfile") = true
  /\ fst (plot_shower3d (fun _ => Raise ValueError) Sample.shower
            [SampleArray.tel_a]
            [("outfile", PyInt 3); ("display", PyBool true)]%string [])
     = Raise AssertionError.
Proof.
  split; [reflexivity |].
  assert (Hnot : forall s,
            dict_get [("outfile", PyInt 3); ("display", PyBool true)]%string
              "outfile" <> PyStr s) by (intros s; discriminate).
  exact (proj1 (@plot_shower3d_outfile_not_str (fun _ => Raise ValueError)
                  Sample.shower [SampleArray.tel_a] SampleArray.tel_a
                  [("outfile", PyInt 3); ("display", PyBool true)]%string
                  eq_refl eq_refl eq_refl Hnot)).
Defined.

Lemma plot_shower3d_saves_eps_witness :
  dict_get [("outfile", PyStr "shower")]%string "outfile" = PyStr "shower"
  /\ exists log,
       plot_shower3d (fun _ => Raise ValueError) Sample.shower
         [SampleArray.tel_a; SampleArray.tel_b]
         [("outfile", PyStr "shower")]%string []
       = (Ok tt, log ++ [SaveFig "shower.eps"])
       /\ forall fname, ~ In (SaveFig fname) log.
Proof.
  split; [reflexivity |].
  assert (Hne : "shower"%string <> ""%string) by discriminate.
  exact (@plot_shower3d_saves_eps (fun _ => Raise ValueError) Sample.shower
           [SampleArray.tel_a; SampleArray.tel_b] SampleArray.tel_b
           [("outfile", PyStr "shower")]%string "shower"
           eq_refl eq_refl eq_refl Hne).
Defined.
